(** * wordblaster: the game-session state machine of [app.py]

    A shallow embedding of the session store, the request and socket
    handlers, the background timers, the change-detecting publisher, the
    dictionary loader and the [/ocr] handler of [src/app.py], followed by
    the properties of the specification and by further properties of the
    code.

    Conventions of the embedding.
    - Python [int] is [Z]; [len(word)] is a [nat]; [time.time()] values are
      exact rationals ([Qc]), supplied by the caller of every handler that
      reads the clock.
    - A Python [str] is a [string] whose characters are read as the code
      points 0..255.
    - [state["phase"]] only ever holds one of twelve literals: it is the
      enumeration [Phase], and [phase_name] gives the literal back.
    - The global [state], [_last_emitted_state], the background tasks that
      were started and have not finished, and everything handed to
      [socketio.emit] form one [world]; a handler is a function on worlds.
    - [time.sleep] is not simulated: a sleeping task may be resumed at any
      later moment, which covers "no matter how late it fires". *)

From stdpp Require Import gmap strings list numbers pretty.
From Stdlib Require Import Ascii QArith Qcanon.

Open Scope Z_scope.

(** A reading of the clock. *)
Definition time := Qc.

(** ** Strings: [str.strip], [str.lower] and the [in] operator *)

(** [str.isspace] on the code points below 256. *)
Definition is_space (c : ascii) : bool :=
  let n := N_of_ascii c in
  ((9 <=? n) && (n <=? 13) || (28 <=? n) && (n <=? 32)
   || (n =? 133) || (n =? 160))%N.

(** [str.lower] on one code point below 256: A-Z and the Latin-1 capitals
    (all of 0xC0..0xDE but the multiplication sign 0xD7) move by 32. *)
Definition lower_char (c : ascii) : ascii :=
  let n := N_of_ascii c in
  if ((65 <=? n) && (n <=? 90)
      || (192 <=? n) && (n <=? 222) && negb (n =? 215))%N
  then ascii_of_N (n + 32) else c.

Fixpoint lower (s : string) : string :=
  match s with
  | EmptyString => EmptyString
  | String c s' => String (lower_char c) (lower s')
  end.

Fixpoint lstrip (s : string) : string :=
  match s with
  | EmptyString => EmptyString
  | String c s' => if is_space c then lstrip s' else s
  end.

Fixpoint rstrip (s : string) : string :=
  match s with
  | EmptyString => EmptyString
  | String c s' =>
      match rstrip s' with
      | EmptyString => if is_space c then EmptyString else String c EmptyString
      | r => String c r
      end
  end.

Definition strip (s : string) : string := rstrip (lstrip s).

(** [sub in s] for strings. *)
Fixpoint str_in (sub s : string) : bool :=
  Strings.String.prefix sub s
  || match s with
     | EmptyString => false
     | String _ s' => str_in sub s'
     end.

(** ** Configuration *)

Definition MIN_WORD_LEN : nat := 5.

Definition POINTS_BY_LEN : gmap nat Z :=
  {[ 5%nat := 3; 6%nat := 5; 7%nat := 8; 8%nat := 13 ]}.

Definition PAIRINGS : list (string * string) :=
  [ ("FESTIVAL", "PASSPORT"); ("PLAYTIME", "CAMPFIRE") ].

(** A value stored under the key ["tier"]: the key may be missing from the
    dictionary, hold [None], or hold a string. *)
Inductive tier_field :=
  | TierMissing
  | TierNone
  | TierStr (s : string).

Definition tier_for_len (n : nat) : tier_field :=
  if bool_decide (n ∈ [5; 6; 7; 8]%nat) then TierStr (pretty n) else TierNone.

(** ** The session *)

Inductive TeamId := TeamA | TeamB.

Inductive Phase :=
  | Intro | Idle | Countdown | Active | Scanning | ScanFailed
  | BonusIntro | BonusCountdown | BonusActive | BonusScanning
  | BonusScanFailed | GameOver.

Definition phase_name (p : Phase) : string :=
  match p with
  | Intro => "intro"
  | Idle => "idle"
  | Countdown => "countdown"
  | Active => "active"
  | Scanning => "scanning"
  | ScanFailed => "scan_failed"
  | BonusIntro => "bonus_intro"
  | BonusCountdown => "bonus_countdown"
  | BonusActive => "bonus_active"
  | BonusScanning => "bonus_scanning"
  | BonusScanFailed => "bonus_scan_failed"
  | GameOver => "game_over"
  end.

Record Team := mkTeam { name : string; score : Z }.

(** [state["last_result"]]: a dictionary replaced wholesale.  The timeout
    results carry neither ["len"] nor ["tier"]. *)
Record Result := mkResult {
  r_id : time;
  r_word : string;
  r_valid : bool;
  r_len : option nat;
  r_tier : tier_field;
  r_points : Z;
  r_reason : string
}.

Record session := mkSession {
  pair_index : Z;
  teamA : Team;
  teamB : Team;
  used_words : gset string;
  current_team : TeamId;
  phase : Phase;
  last_result : option Result;
  last_trigger_at : time;
  winning_team : option TeamId;
  bonus_submitted : bool;
  round_id : Z
}.

Definition initial_state : session :=
  {| pair_index := 0;
     teamA := mkTeam "Team A" 0;
     teamB := mkTeam "Team B" 0;
     used_words := ∅;
     current_team := TeamA;
     phase := Intro;
     last_result := None;
     last_trigger_at := 0%Qc;
     winning_team := None;
     bonus_submitted := false;
     round_id := 0 |}.

#[global] Instance TeamId_eq_dec : EqDecision TeamId.
Proof. solve_decision. Defined.
#[global] Instance Phase_eq_dec : EqDecision Phase.
Proof. solve_decision. Defined.
#[global] Instance tier_field_eq_dec : EqDecision tier_field.
Proof. solve_decision. Defined.
#[global] Instance Team_eq_dec : EqDecision Team.
Proof. solve_decision. Defined.
#[global] Instance Result_eq_dec : EqDecision Result.
Proof. solve_decision. Defined.

(** Assignments to one key of [state]. *)
Definition set_pair_index (v : Z) (s : session) : session :=
  mkSession v (teamA s) (teamB s) (used_words s) (current_team s) (phase s)
    (last_result s) (last_trigger_at s) (winning_team s) (bonus_submitted s)
    (round_id s).
Definition set_teamA (v : Team) (s : session) : session :=
  mkSession (pair_index s) v (teamB s) (used_words s) (current_team s)
    (phase s) (last_result s) (last_trigger_at s) (winning_team s)
    (bonus_submitted s) (round_id s).
Definition set_teamB (v : Team) (s : session) : session :=
  mkSession (pair_index s) (teamA s) v (used_words s) (current_team s)
    (phase s) (last_result s) (last_trigger_at s) (winning_team s)
    (bonus_submitted s) (round_id s).
Definition set_used_words (v : gset string) (s : session) : session :=
  mkSession (pair_index s) (teamA s) (teamB s) v (current_team s) (phase s)
    (last_result s) (last_trigger_at s) (winning_team s) (bonus_submitted s)
    (round_id s).
Definition set_current_team (v : TeamId) (s : session) : session :=
  mkSession (pair_index s) (teamA s) (teamB s) (used_words s) v (phase s)
    (last_result s) (last_trigger_at s) (winning_team s) (bonus_submitted s)
    (round_id s).
Definition set_phase (v : Phase) (s : session) : session :=
  mkSession (pair_index s) (teamA s) (teamB s) (used_words s)
    (current_team s) v (last_result s) (last_trigger_at s) (winning_team s)
    (bonus_submitted s) (round_id s).
Definition set_last_result (v : option Result) (s : session) : session :=
  mkSession (pair_index s) (teamA s) (teamB s) (used_words s)
    (current_team s) (phase s) v (last_trigger_at s) (winning_team s)
    (bonus_submitted s) (round_id s).
Definition set_last_trigger_at (v : time) (s : session) : session :=
  mkSession (pair_index s) (teamA s) (teamB s) (used_words s)
    (current_team s) (phase s) (last_result s) v (winning_team s)
    (bonus_submitted s) (round_id s).
Definition set_winning_team (v : option TeamId) (s : session) : session :=
  mkSession (pair_index s) (teamA s) (teamB s) (used_words s)
    (current_team s) (phase s) (last_result s) (last_trigger_at s) v
    (bonus_submitted s) (round_id s).
Definition set_bonus_submitted (v : bool) (s : session) : session :=
  mkSession (pair_index s) (teamA s) (teamB s) (used_words s)
    (current_team s) (phase s) (last_result s) (last_trigger_at s)
    (winning_team s) v (round_id s).
Definition set_round_id (v : Z) (s : session) : session :=
  mkSession (pair_index s) (teamA s) (teamB s) (used_words s)
    (current_team s) (phase s) (last_result s) (last_trigger_at s)
    (winning_team s) (bonus_submitted s) v.

Definition set_name (v : string) (t : Team) : Team := mkTeam v (score t).
Definition set_score (v : Z) (t : Team) : Team := mkTeam (name t) v.

(** [if team == "A": state["teamA"]["score"] += pts
     else: state["teamB"]["score"] += pts] *)
Definition add_score (team : TeamId) (pts : Z) (s : session) : session :=
  match team with
  | TeamA => set_teamA (set_score (score (teamA s) + pts) (teamA s)) s
  | TeamB => set_teamB (set_score (score (teamB s) + pts) (teamB s)) s
  end.

(** ["B" if team == "A" else "A"] *)
Definition flip (team : TeamId) : TeamId :=
  match team with TeamA => TeamB | TeamB => TeamA end.

(** ** Snapshots and the publisher

    [state.copy()] is a shallow copy: under ["teamA"] and ["teamB"] it holds
    the very dictionaries that [state] holds, which the handlers mutate in
    place.  A snapshot cell is therefore either [Live], a reference to the
    team dictionary of the current [state], or [Frozen], a dictionary of its
    own as [copy.deepcopy] produces.  The other values are immutable or, for
    [used_words], a list built afresh. *)

Inductive team_cell :=
  | Live (k : TeamId)
  | Frozen (t : Team).

Record snapshot := mkSnapshot {
  sn_pair_index : Z;
  sn_teamA : team_cell;
  sn_teamB : team_cell;
  sn_used_words : list string;
  sn_current_team : TeamId;
  sn_phase : Phase;
  sn_last_result : option Result;
  sn_last_trigger_at : time;
  sn_winning_team : option TeamId;
  sn_bonus_submitted : bool;
  sn_round_id : Z
}.

#[global] Instance team_cell_eq_dec : EqDecision team_cell.
Proof. solve_decision. Defined.
#[global] Instance snapshot_eq_dec : EqDecision snapshot.
Proof. solve_decision. Defined.

(** [safe_state = state.copy(); safe_state["used_words"] = list(...)] *)
Definition safe_state_of (s : session) : snapshot :=
  {| sn_pair_index := pair_index s;
     sn_teamA := Live TeamA;
     sn_teamB := Live TeamB;
     sn_used_words := elements (used_words s);
     sn_current_team := current_team s;
     sn_phase := phase s;
     sn_last_result := last_result s;
     sn_last_trigger_at := last_trigger_at s;
     sn_winning_team := winning_team s;
     sn_bonus_submitted := bonus_submitted s;
     sn_round_id := round_id s |}.

(** The dictionary a cell denotes while the session is [s]. *)
Definition load (s : session) (c : team_cell) : Team :=
  match c with
  | Live TeamA => teamA s
  | Live TeamB => teamB s
  | Frozen t => t
  end.

(** [copy.deepcopy(sn)], taken while the session is [s]. *)
Definition deepcopy (s : session) (sn : snapshot) : snapshot :=
  {| sn_pair_index := sn_pair_index sn;
     sn_teamA := Frozen (load s (sn_teamA sn));
     sn_teamB := Frozen (load s (sn_teamB sn));
     sn_used_words := sn_used_words sn;
     sn_current_team := sn_current_team sn;
     sn_phase := sn_phase sn;
     sn_last_result := sn_last_result sn;
     sn_last_trigger_at := sn_last_trigger_at sn;
     sn_winning_team := sn_winning_team sn;
     sn_bonus_submitted := sn_bonus_submitted sn;
     sn_round_id := sn_round_id sn |}.

(** [x == y] on two snapshot dictionaries while the session is [s]: Python
    compares the dictionaries key by key and follows the references. *)
Definition snapshot_eqb (s : session) (x y : snapshot) : bool :=
  bool_decide (deepcopy s x = deepcopy s y).

(** What [socketio.emit] was handed, in order. *)
Inductive message :=
  | GameState (payload : snapshot)
  | AdminSecrets (a b : string)
  | SnapshotCmd.

(** Program points of the background tasks at which they wait for the
    lock: just started, or asleep with the captured [my_round_id]. *)
Inductive task :=
  | CountdownStart
  | CountdownSleep3 (my_round_id : Z)
  | CountdownSleep30 (my_round_id : Z)
  | BonusStart
  | BonusSleep3 (my_round_id : Z)
  | BonusSleep60 (my_round_id : Z)
  | WatchdogStart
  | WatchdogSleep11 (my_round_id : Z)
  | ClearResultSleep5
  | GameOverSleep12.

#[global] Instance message_eq_dec : EqDecision message.
Proof. solve_decision. Defined.
#[global] Instance task_eq_dec : EqDecision task.
Proof. solve_decision. Defined.

(** The argument of the [time.sleep] a task is in ([0] before the first). *)
Definition sleep_of (t : task) : Z :=
  match t with
  | CountdownStart | BonusStart | WatchdogStart => 0
  | CountdownSleep3 _ | BonusSleep3 _ => 3
  | CountdownSleep30 _ => 30
  | BonusSleep60 _ => 60
  | WatchdogSleep11 _ => 11
  | ClearResultSleep5 => 5
  | GameOverSleep12 => 12
  end.

Record world := mkWorld {
  state : session;
  _last_emitted_state : option snapshot;
  tasks : list task;
  outbox : list message
}.

Definition initial_world : world := mkWorld initial_state None [] [].

Definition set_state (s : session) (w : world) : world :=
  mkWorld s (_last_emitted_state w) (tasks w) (outbox w).

(** [socketio.start_background_task(t)] *)
Definition start_background_task (t : task) (w : world) : world :=
  mkWorld (state w) (_last_emitted_state w) (tasks w ++ [t]) (outbox w).

(** [socketio.emit(...)] *)
Definition emit (m : message) (w : world) : world :=
  mkWorld (state w) (_last_emitted_state w) (tasks w) (outbox w ++ [m]).

(** The [try] block of [emit_state]: the pairing at
    [pair_index % len(PAIRINGS)], nothing when the lookup fails. *)
Definition admin_secrets (s : session) : list message :=
  match PAIRINGS !! Z.to_nat (pair_index s `mod` Z.of_nat (length PAIRINGS)) with
  | Some curr => [AdminSecrets (fst curr) (snd curr)]
  | None => []
  end.

Definition emit_state (force : bool) (w : world) : world :=
  let safe_state := safe_state_of (state w) in
  if negb force
     && match _last_emitted_state w with
        | Some last => snapshot_eqb (state w) last safe_state
        | None => false
        end
  then w
  else
    mkWorld (state w)
      (Some (deepcopy (state w) safe_state))
      (tasks w)
      (outbox w ++ GameState (deepcopy (state w) safe_state)
                :: admin_secrets (state w)).

(** ** Timers fired after a sleep *)

(** The result dictionary written by the two round timers. *)
Definition timeout_result (now : time) (reason : string) : Result :=
  mkResult now "" false None TierMissing 0 reason.

(** [transition_to_game_over], after its [time.sleep(12)]. *)
Definition transition_to_game_over (w : world) : world :=
  let w := set_state (set_phase GameOver (state w)) w in
  emit_state false w.

(** [clear_result_after_delay], after its [time.sleep(5)]. *)
Definition clear_result_after_delay (w : world) : world :=
  let s := state w in
  let s := if bool_decide (phase s = Idle) then set_last_result None s else s in
  emit_state false (set_state s w).

(** One critical section of [do_countdown], entered at program point [t];
    the result is the world and the program point reached, if any.  At the
    start the task only reads [my_round_id = state["round_id"]]. *)
Definition do_countdown (t : task) (now : time) (w : world) : world * option task :=
  let s := state w in
  match t with
  | CountdownSleep3 my_round_id =>
      let s :=
        if bool_decide (phase s = Countdown) && bool_decide (round_id s = my_round_id)
        then set_phase Active s else s in
      (emit_state false (set_state s w), Some (CountdownSleep30 my_round_id))
  | CountdownSleep30 my_round_id =>
      let w :=
        if bool_decide (phase s = Active) && bool_decide (round_id s = my_round_id)
        then
          let s := set_phase Idle s in
          let s := set_last_result (Some (timeout_result now "TIMEOUT")) s in
          let s := set_current_team (flip (current_team s)) s in
          start_background_task ClearResultSleep5 (set_state s w)
        else w in
      (emit_state false w, None)
  | CountdownStart => (w, Some (CountdownSleep3 (round_id s)))
  | _ => (w, None)
  end.

(** One critical section of [do_bonus_round]. *)
Definition do_bonus_round (t : task) (now : time) (w : world) : world * option task :=
  let s := state w in
  match t with
  | BonusSleep3 my_round_id =>
      let s :=
        if bool_decide (phase s = BonusCountdown)
           && bool_decide (round_id s = my_round_id)
        then set_phase BonusActive s else s in
      (emit_state false (set_state s w), Some (BonusSleep60 my_round_id))
  | BonusSleep60 my_round_id =>
      let w :=
        if bool_decide (phase s = BonusActive)
           && bool_decide (round_id s = my_round_id)
           && negb (bonus_submitted s)
        then
          let s := set_last_result (Some (timeout_result now "TIME_EXPIRED")) s in
          let s := set_bonus_submitted true s in
          let s := set_phase BonusIntro s in
          start_background_task GameOverSleep12 (set_state s w)
        else w in
      (emit_state false w, None)
  | BonusStart => (w, Some (BonusSleep3 (round_id s)))
  | _ => (w, None)
  end.

(** One critical section of [scan_watchdog]; both early [return]s leave
    before [emit_state]. *)
Definition scan_watchdog (t : task) (w : world) : world * option task :=
  let s := state w in
  match t with
  | WatchdogSleep11 my_round_id =>
      if negb (bool_decide (round_id s = my_round_id)) then (w, None)
      else if bool_decide (phase s = Scanning)
      then (emit_state false (set_state (set_phase ScanFailed s) w), None)
      else if bool_decide (phase s = BonusScanning)
      then (emit_state false (set_state (set_phase BonusScanFailed s) w), None)
      else (w, None)
  | WatchdogStart => (w, Some (WatchdogSleep11 (round_id s)))
  | _ => (w, None)
  end.

(** Resume task [t] for one critical section at clock reading [now]. *)
Definition run_task (t : task) (now : time) (w : world) : world * option task :=
  match t with
  | CountdownStart | CountdownSleep3 _ | CountdownSleep30 _ => do_countdown t now w
  | BonusStart | BonusSleep3 _ | BonusSleep60 _ => do_bonus_round t now w
  | WatchdogStart | WatchdogSleep11 _ => scan_watchdog t w
  | ClearResultSleep5 => (clear_result_after_delay w, None)
  | GameOverSleep12 => (transition_to_game_over w, None)
  end.

(** The [i]-th pending task runs its next critical section; it is then
    replaced by its next program point or dropped when it returned. *)
Definition fire (i : nat) (now : time) (w : world) : world :=
  match tasks w !! i with
  | None => w
  | Some t =>
      let '(w', k) := run_task t now w in
      mkWorld (state w') (_last_emitted_state w')
        (match k with
         | Some t' => <[i := t']> (tasks w')
         | None => delete i (tasks w')
         end)
        (outbox w')
  end.

(** ** HTTP handlers *)

(** The kinds of JSON body, other than an object, that are true in
    Python: a non-empty array or string, a non-zero number, [true]. *)
Inductive json_kind := JsonList | JsonStr | JsonInt | JsonFloat | JsonBool.

(** [type(data).__name__] *)
Definition type_name (k : json_kind) : string :=
  match k with
  | JsonList => "list"
  | JsonStr => "str"
  | JsonInt => "int"
  | JsonFloat => "float"
  | JsonBool => "bool"
  end.

(** [data = request.get_json(force=True, silent=True) or {}].  A body that
    is an object comes with the strings under its keys ["teamA"] and
    ["teamB"], [None] where the key is missing.  A body that is missing,
    cannot be parsed, or is false in Python ([null], [0], [""], [[]])
    becomes the empty object.  Any other body is named by its kind.  Team
    names are kept to strings: a value under one of the two keys that is
    false in Python counts as missing, and other values that are not
    strings are outside the embedding. *)
Inductive request_body :=
  | JsonObject (data_teamA data_teamB : option string)
  | JsonOther (kind : json_kind).

(** [str(e)] for the [AttributeError] that [data.get] raises on a body
    that is not an object. *)
Definition no_get (k : json_kind) : string :=
  "'" +:+ type_name k +:+ "' object has no attribute 'get'".

(** [jsonify({"ok": True})], or [jsonify({"error": str(e)})] with its
    status. *)
Inductive json_response :=
  | JsonOk
  | JsonError (error : string) (status : Z).

(** [jsonify({"valid": .., "points": .., "reason": ..})] and the HTTP status. *)
Record submit_response := JsonSubmit {
  valid : bool;
  points : Z;
  reason : string;
  status : Z
}.

(** [if data.get(key): state[team]["name"] = data[key]] *)
Definition rename (data_name : option string) (t : Team) : Team :=
  match data_name with
  | Some (String _ _ as n) => set_name n t
  | _ => t
  end.

(** [start_game].  The lock is taken and [pair_index] is written before
    the body is read: on a body that is not an object [data.get] raises
    there, the rest of the block and [emit_state] are skipped, and the
    [except] clause answers with status 500. *)
Definition start_game (body : request_body) (w : world)
  : world * json_response :=
  let s := state w in
  let s := set_pair_index ((pair_index s + 1) `mod` Z.of_nat (length PAIRINGS)) s in
  match body with
  | JsonOther kind => (set_state s w, JsonError (no_get kind) 500)
  | JsonObject data_teamA data_teamB =>
      let s := set_teamA (rename data_teamA (teamA s)) s in
      let s := set_teamB (rename data_teamB (teamB s)) s in
      let s := set_teamA (set_score 0 (teamA s)) s in
      let s := set_teamB (set_score 0 (teamB s)) s in
      let s := set_used_words ∅ s in
      let s := set_current_team TeamA s in
      let s := set_phase Intro s in
      let s := set_last_result None s in
      let s := set_winning_team None s in
      let s := set_bonus_submitted false s in
      let s := set_last_trigger_at 0%Qc s in
      let s := set_round_id (round_id s + 1) s in
      (emit_state true (set_state s w), JsonOk)
  end.

Definition init_bonus (w : world) : world * json_response :=
  let s := state w in
  let scoreA := score (teamA s) in
  let scoreB := score (teamB s) in
  let s :=
    if bool_decide (scoreA >= scoreB)
    then set_current_team TeamA (set_winning_team (Some TeamA) s)
    else set_current_team TeamB (set_winning_team (Some TeamB) s) in
  let s := set_phase BonusIntro s in
  let s := set_last_result None s in
  let s := set_bonus_submitted false s in
  (emit_state false (set_state s w), JsonOk).

Definition reset_game (w : world) : world * json_response :=
  let s := state w in
  let s := set_phase Intro s in
  let s := set_teamA (set_score 0 (teamA s)) s in
  let s := set_teamB (set_score 0 (teamB s)) s in
  let s := set_winning_team None s in
  let s := set_last_result None s in
  let s := set_bonus_submitted false s in
  (emit_state false (set_state s w), JsonOk).

(** The tiered scoring of the bonus branch; [pts] stays at its initial [0]
    when no arm of the [if]/[elif] chain applies. *)
Definition bonus_pts (n : nat) : Z :=
  if (n =? 5)%nat then 7
  else if (n =? 6)%nat then 9
  else if (n =? 7)%nat then 13
  else if (8 <=? n)%nat then 20
  else 0.

(** [state["phase"] in ["bonus_active", "bonus_scanning", "bonus_scan_failed"]] *)
Definition bonus_round_phase (p : Phase) : bool :=
  bool_decide (p ∈ [BonusActive; BonusScanning; BonusScanFailed]).

(** [submit]: [data_word] is the string under ["word"] (the empty string when
    absent) and [now] the clock reading stored as the result's id. *)
Definition submit (words : gset string) (data_word : string) (now : time)
    (w : world) : world * submit_response :=
  let word := lower (strip data_word) in
  let n := String.length word in
  let s := state w in
  let team := current_team s in
  let tier := tier_for_len n in
  if bonus_round_phase (phase s) then
    if bonus_submitted s
    then (w, JsonSubmit false 0 "already_submitted" 400)
    else
      let '(valid, reason, pts, s) :=
        if (n <? 5)%nat then (false, "too_short", 0, s)
        else if negb (bool_decide (word ∈ words))
        then (false, "not_in_dictionary", 0, s)
        else
          let pts := bonus_pts n in
          (true, "BONUS_CLEARED", pts, add_score team pts s) in
      let s := set_last_result
                 (Some (mkResult now word valid (Some n) (TierStr (pretty n))
                          pts reason)) s in
      let s := set_bonus_submitted true s in
      let s := set_phase BonusIntro s in
      let w := start_background_task GameOverSleep12 (set_state s w) in
      (emit_state false w, JsonSubmit valid pts reason 200)
  else
    let '(valid, reason, pts, s) :=
      if (n <? MIN_WORD_LEN)%nat then (false, "too_short", 0, s)
      else if bool_decide (word ∈ used_words s) then (false, "duplicate", 0, s)
      else if negb (bool_decide (word ∈ words))
      then (false, "not_in_dictionary", 0, s)
      else
        let pts := default 0 (POINTS_BY_LEN !! n) in
        let s := set_used_words ({[word]} ∪ used_words s) s in
        (true, "ok", pts, add_score team pts s) in
    let s := set_last_result
               (Some (mkResult now word valid (Some n) tier pts reason)) s in
    let s := set_phase Idle s in
    let s := set_current_team (flip team) s in
    let w := start_background_task ClearResultSleep5 (set_state s w) in
    (emit_state false w, JsonSubmit valid pts reason 200).

(** ** Socket handlers *)

Definition on_trigger (now : time) (w : world) : world :=
  let s := state w in
  if bool_decide (now - last_trigger_at s < 2)%Qc then w
  else
    let s := set_last_trigger_at now s in
    let w :=
      match phase s with
      | Intro => set_state (set_phase Idle s) w
      | Idle =>
          let s := set_phase Countdown s in
          let s := set_last_result None s in
          let s := set_round_id (round_id s + 1) s in
          start_background_task CountdownStart (set_state s w)
      | BonusIntro =>
          let s := set_phase BonusCountdown s in
          let s := set_bonus_submitted false s in
          let s := set_round_id (round_id s + 1) s in
          start_background_task BonusStart (set_state s w)
      | Active | BonusActive =>
          let new_phase :=
            if bool_decide (phase s = BonusActive) then BonusScanning else Scanning in
          let w := set_state (set_phase new_phase s) w in
          start_background_task WatchdogStart (emit SnapshotCmd w)
      | _ => set_state s w
      end in
    emit_state false w.

Definition on_trigger_snapshot (w : world) : world :=
  let s := state w in
  let w :=
    if bool_decide (phase s ∈ [Active; Countdown]) then
      let w := set_state (set_phase Scanning s) w in
      start_background_task WatchdogStart (emit SnapshotCmd w)
    else if bool_decide (phase s ∈ [BonusActive; BonusCountdown]) then
      let w := set_state (set_phase BonusScanning s) w in
      start_background_task WatchdogStart (emit SnapshotCmd w)
    else w in
  emit_state false w.

Definition on_scan_timeout (w : world) : world :=
  let s := state w in
  let s :=
    if str_in "bonus" (phase_name (phase s))
    then set_phase BonusScanFailed s
    else set_phase ScanFailed s in
  emit_state false (set_state s w).

(** Only prints. *)
Definition on_scan_complete (w : world) : world := w.

Definition on_connect (w : world) : world := emit_state true w.

(** ** Runs: everything that can happen to the world, one event at a time *)

Inductive event :=
  | StartGame (body : request_body)
  | InitBonus
  | ResetGame
  | Submit (data_word : string) (now : time)
  | Trigger (now : time)
  | TriggerSnapshot
  | ScanTimeout
  | ScanComplete
  | Connect
  | Fire (i : nat) (now : time).

Definition step (words : gset string) (e : event) (w : world) : world :=
  match e with
  | StartGame body => fst (start_game body w)
  | InitBonus => fst (init_bonus w)
  | ResetGame => fst (reset_game w)
  | Submit data_word now => fst (submit words data_word now w)
  | Trigger now => on_trigger now w
  | TriggerSnapshot => on_trigger_snapshot w
  | ScanTimeout => on_scan_timeout w
  | ScanComplete => on_scan_complete w
  | Connect => on_connect w
  | Fire i now => fire i now w
  end.

Definition run (words : gset string) (es : list event) (w : world) : world :=
  foldl (fun w e => step words e w) w es.

(** ** Vocabulary of the specification *)

(** The five phases the specification calls the bonus phases. *)
Definition bonus_phases : list Phase :=
  [BonusIntro; BonusCountdown; BonusActive; BonusScanning; BonusScanFailed].

Definition any_bonus_phase (p : Phase) : bool := bool_decide (p ∈ bonus_phases).

(** The fields a stale timer must leave alone: phase, scores and result. *)
Definition guarded_fields (s : session) : Phase * Z * Z * option Result :=
  (phase s, score (teamA s), score (teamB s), last_result s).

(** A timer is stale once [round_id] has moved past the value it captured;
    the two tasks that capture nothing have no such value. *)
Definition captured_round_id (t : task) : option Z :=
  match t with
  | CountdownSleep3 r | CountdownSleep30 r
  | BonusSleep3 r | BonusSleep60 r
  | WatchdogSleep11 r => Some r
  | _ => None
  end.

(** The bonus branch of [submit] as the transition table words it: a result
    is recorded, the flag is set, the phase is [bonus_intro] and the
    game-over transition is scheduled. *)
Definition bonus_logic_applied (w w' : world) : Prop :=
  is_Some (last_result (state w'))
  ∧ bonus_submitted (state w') = true
  ∧ phase (state w') = BonusIntro
  ∧ tasks w' = tasks w ++ [GameOverSleep12].

(** The events that reset the scores. *)
Definition zeroes_scores (e : event) : bool :=
  match e with
  | StartGame _ | ResetGame => true
  | _ => false
  end.

(** The events that write [last_trigger_at]. *)
Definition moves_anchor (e : event) : bool :=
  match e with
  | StartGame _ | Trigger _ => true
  | _ => false
  end.

Definition is_start_game (e : event) : bool :=
  match e with
  | StartGame _ => true
  | _ => false
  end.

(** The scores never go down from [s] to [s']. *)
Definition scores_le (s s' : session) : Prop :=
  score (teamA s) <= score (teamA s') ∧ score (teamB s) <= score (teamB s').

Definition team_score (k : TeamId) (s : session) : Z :=
  match k with TeamA => score (teamA s) | TeamB => score (teamB s) end.

(** The snapshot of [s] by value. *)
Definition snapshot_value (s : session) : snapshot := deepcopy s (safe_state_of s).

(** The external snapshot of a session as the specification describes it,
    written out field by field: every field of the session at its current
    value, the team dictionaries by value, [used_words] as a list. *)
Definition external_snapshot (s : session) : snapshot :=
  {| sn_pair_index := pair_index s;
     sn_teamA := Frozen (teamA s);
     sn_teamB := Frozen (teamB s);
     sn_used_words := elements (used_words s);
     sn_current_team := current_team s;
     sn_phase := phase s;
     sn_last_result := last_result s;
     sn_last_trigger_at := last_trigger_at s;
     sn_winning_team := winning_team s;
     sn_bonus_submitted := bonus_submitted s;
     sn_round_id := round_id s |}.

(** The payload of the last [game_state] message among [ms], the session
    as the observers have it. *)
Fixpoint last_game_state (ms : list message) : option snapshot :=
  match ms with
  | [] => None
  | m :: ms' =>
      match last_game_state ms' with
      | Some sn => Some sn
      | None => match m with GameState sn => Some sn | _ => None end
      end
  end.

(** A [start_game] that fails on its body. *)
Definition fails (e : event) : bool :=
  match e with
  | StartGame (JsonOther _) => true
  | _ => false
  end.

(** A snapshot that holds no reference into the live session. *)
Definition is_value_copy (sn : snapshot) : Prop :=
  (∃ t, sn_teamA sn = Frozen t) ∧ (∃ t, sn_teamB sn = Frozen t).

(** ** Concrete data for the scenarios *)

Definition demo_words : gset string := {[ "apple"; "grape" ]}.

(** Clock readings, in seconds. *)
Definition sec (n : Z) : time := Q2Qc (n # 1).
Definition half_past (n : Z) : time := Q2Qc ((2 * n + 1) # 2).

(** The moderator opens the bonus round and the countdown runs out: the
    session is in [bonus_active] with [round_id = 1]. *)
Definition bonus_round_opened : list event :=
  [InitBonus; Trigger (sec 10); Fire 0 (sec 10); Fire 0 (sec 13)].

Definition after_init_bonus : world := run demo_words [InitBonus] initial_world.

Definition bonus_active_world : world :=
  run demo_words bonus_round_opened initial_world.

(** The bonus word is submitted at 20, which starts the 12-second task. *)
Definition bonus_done_world : world :=
  step demo_words (Submit "apple" (sec 20)) bonus_active_world.

(** A new game is started while that task sleeps. *)
Definition restarted_world : world :=
  step demo_words (StartGame (JsonObject None None)) bonus_done_world.

(** A word is scored at 11, so its result is to be cleared at 16. *)
Definition first_word_scored : world :=
  run demo_words [Trigger (sec 10); Submit "apple" (sec 11)] initial_world.

(** The next round is started at 12, its countdown runs out at 15, and its
    word is scored at 15.5. *)
Definition second_word_scored : world :=
  run demo_words
    [Trigger (sec 12); Fire 1 (sec 12); Fire 1 (sec 15);
     Submit "grape" (half_past 15)]
    first_word_scored.

(** Team A has scored a word in a fresh session. *)
Definition scored_world : world :=
  run demo_words [Submit "apple" (sec 1)] initial_world.

(** A trigger accepted at 10 and one dropped at 11.5. *)
Definition cooldown_world : world :=
  run demo_words [Trigger (sec 10); Trigger (half_past 11)] initial_world.

(** A run without [start_game] and [reset_game]. *)
Definition quiet_run : list event :=
  [Submit "apple" (sec 1); InitBonus; Trigger (sec 10); Fire 0 (sec 10)].

(** ** The dictionary file *)

(** [words], from the lines of [data/words.txt] as [for line in f] yields
    them, or from [None] when opening or reading the file raises: [words]
    then stays the empty set it was initialised to. *)
Definition load_words (file : option (list string)) : gset string :=
  match file with
  | Some lines =>
      list_to_set
        ((λ line, lower (strip line))
           <$> filter (λ line, (MIN_WORD_LEN ≤ String.length (strip line))%nat)
                 lines)
  | None => ∅
  end.

(** ** The [/ocr] handler *)

(** [s.split(sep)] for a one-character separator. *)
Fixpoint split (sep : ascii) (s : string) : list string :=
  match s with
  | EmptyString => [EmptyString]
  | String c s' =>
      if bool_decide (c = sep) then EmptyString :: split sep s'
      else match split sep s' with
           | seg :: rest => String c seg :: rest
           | [] => [String c EmptyString]
           end
  end.

(** [valid_letters = set("ACEFILMOPRSTVY")] *)
Definition valid_letters : list ascii :=
  ["A"; "C"; "E"; "F"; "I"; "L"; "M"; "O"; "P"; "R"; "S"; "T"; "V"; "Y"]%char.

(** ["".join(c for c in response_text if c in valid_letters)] *)
Fixpoint keep_valid_letters (s : string) : string :=
  match s with
  | EmptyString => EmptyString
  | String c s' =>
      if bool_decide (c ∈ valid_letters) then String c (keep_valid_letters s')
      else keep_valid_letters s'
  end.

(** The two shapes of the answer: [{"letters": .., "raw": ..}] with status
    200, or [{"error": .., "letters": ""}] with status 400 or 500. *)
Inductive ocr_response :=
  | OcrLetters (letters raw : string)
  | OcrError (error : string) (status : Z).

(** The image data handed to the vision service: what follows the first
    comma, up to the second, when the string holds a comma.  [None] stands
    for the [IndexError] of [split(",")[1]]. *)
Definition image_payload (image : string) : option string :=
  if str_in "," image then split "," image !! 1%nat else Some image.

(** [ocr].  [image] is the string under ["image"] (the empty string when
    absent).  The vision service is a parameter: [vision image_data] is the
    text of its first content block, or the message of the exception it
    raised.  [upper] stands for [str.upper], whose results leave the code
    points of this embedding (for [ß] and [ÿ]); it is a parameter too. *)
Definition ocr (upper : string → string) (vision : string → string + string)
    (image : string) : ocr_response :=
  match image_payload image with
  | None => OcrError "list index out of range" 500
  | Some image_data =>
      if bool_decide (image_data = "") then OcrError "No image data" 400
      else
        match vision image_data with
        | inr e => OcrError e 500
        | inl text =>
            let response_text := upper (strip text) in
            OcrLetters (keep_valid_letters response_text) response_text
        end
  end.

(** ** Vocabulary for the properties of runs *)

(** No white space in front. *)
Definition starts_clean (s : string) : Prop :=
  match s with
  | String c _ => is_space c = false
  | EmptyString => True
  end.

(** The events that move the round token: a [start_game] that gets past
    its body, and a trigger
    outside the cooldown that finds the session in [idle] or
    [bonus_intro]. *)
Definition bumps_round_id (e : event) (w : world) : bool :=
  match e with
  | StartGame (JsonObject _ _) => true
  | Trigger now =>
      negb (bool_decide (now - last_trigger_at (state w) < 2)%Qc)
      && bool_decide (phase (state w) ∈ [Idle; BonusIntro])
  | _ => false
  end.

(** The observers hold the session [s]: the last [game_state] message
    that was pushed carries every field of [s], and so does the snapshot
    kept for the next comparison. *)
Definition observers_hold (s : session) (w : world) : Prop :=
  last_game_state (outbox w) = Some (external_snapshot s)
  ∧ _last_emitted_state w = Some (external_snapshot s).

(** The observers hold the current session. *)
Definition in_sync (w : world) : Prop := observers_hold (state w) w.

(** The team ahead when [init_bonus] is called; a tie goes to team A. *)
Definition leader (s : session) : TeamId :=
  if bool_decide (score (teamA s) >= score (teamB s)) then TeamA else TeamB.

(** The phases in which an accepted trigger finds nothing to do. *)
Definition trigger_idle_phases : list Phase :=
  [Countdown; Scanning; ScanFailed; BonusCountdown; BonusScanning;
   BonusScanFailed; GameOver].

(** A word list as read from a file, with line ends. *)
Definition demo_lines : list string :=
  [ String "A" (String "p" (String "p" (String "l" (String "e"
      (String "010" EmptyString)))));
    String "c" (String "a" (String "t" (String "010" EmptyString)));
    String " " (String "g" (String "r" (String "a" (String "p" (String "e"
      (String "010" EmptyString)))))) ].

(** The first line of [demo_lines]. *)
Definition apple_line : string :=
  String "A" (String "p" (String "p" (String "l" (String "e"
    (String "010" EmptyString))))).

(** The session in [idle], [countdown] and [active] of its first round. *)
Definition idle_world : world := run demo_words [Trigger (sec 10)] initial_world.

Definition countdown_world : world := on_trigger (sec 12) idle_world.

Definition active_world : world :=
  run demo_words [Fire 0 (sec 12); Fire 0 (sec 15)] countdown_world.

(** A vision service that sees no letters, one that sees three, and
    [str.upper] on the letters a to z. *)
Definition sees_nothing (image_data : string) : string + string := inl " none ".

Definition sees_cat (image_data : string) : string + string := inl "cat".

Definition upper_char (c : ascii) : ascii :=
  let n := N_of_ascii c in
  if ((97 <=? n) && (n <=? 122))%N then ascii_of_N (n - 32) else c.

Fixpoint ascii_upper (s : string) : string :=
  match s with
  | EmptyString => EmptyString
  | String c s' => String (upper_char c) (ascii_upper s')
  end.

(** * Properties *)

(** ** The publisher *)

Section publisher.
Implicit Types (w : world) (s : session) (sn : snapshot) (force : bool).

Lemma emit_state_state force w : state (emit_state force w) = state w.
Proof. unfold emit_state. by case_match. Qed.

Lemma emit_state_tasks force w : tasks (emit_state force w) = tasks w.
Proof. unfold emit_state. by case_match. Qed.

Lemma deepcopy_idemp s s' sn : deepcopy s' (deepcopy s sn) = deepcopy s sn.
Proof. done. Qed.

Lemma snapshot_value_is_copy s : is_value_copy (snapshot_value s).
Proof. split; eexists; reflexivity. Qed.

(** Comparing the stored copy of [s] with the live snapshot of [s']
    compares the two sessions by value. *)
Lemma snapshot_eqb_value s s' :
  snapshot_eqb s' (snapshot_value s) (safe_state_of s')
  = bool_decide (snapshot_value s = snapshot_value s').
Proof. done. Qed.

(** Had the publisher kept [safe_state] itself, the team dictionaries in
    it would be those of the live session, and a change of score alone
    would compare equal. *)
Lemma live_reference_hides_scores s (k : TeamId) (pts : Z) :
  snapshot_eqb (add_score k pts s) (safe_state_of s)
    (safe_state_of (add_score k pts s)) = true.
Proof. apply bool_decide_eq_true. by destruct k. Qed.

Lemma emit_state_forced w :
  emit_state true w
  = mkWorld (state w) (Some (snapshot_value (state w))) (tasks w)
      (outbox w ++ GameState (snapshot_value (state w))
                :: admin_secrets (state w)).
Proof. done. Qed.

Lemma emit_state_skip w :
  _last_emitted_state w = Some (snapshot_value (state w)) →
  emit_state false w = w.
Proof.
  intros Hlast. unfold emit_state. rewrite Hlast. simpl.
  rewrite snapshot_eqb_value. by rewrite bool_decide_eq_true_2.
Qed.

Lemma emit_state_last force w :
  emit_state force w = w
  ∨ _last_emitted_state (emit_state force w) = Some (snapshot_value (state w)).
Proof. unfold emit_state. case_match; [by left | by right]. Qed.

Lemma outbox_grows w (m : message) (ms : list message) s last ts :
  mkWorld s last ts (outbox w ++ m :: ms) ≠ w.
Proof.
  intros Heq. apply (f_equal (λ x, length (outbox x))) in Heq.
  simpl in Heq. rewrite length_app in Heq. simpl in Heq. lia.
Qed.
End publisher.

(** The snapshot that [emit_state] builds, copies and pushes holds every
    field of the session at its current value. *)
Lemma snapshot_value_fields (s : session) : snapshot_value s = external_snapshot s.
Proof. done. Qed.

(** Two sessions with the same external snapshot are the same session:
    the snapshot leaves no field out. *)
Lemma external_snapshot_inj (s s' : session) :
  external_snapshot s = external_snapshot s' → s = s'.
Proof.
  destruct s, s'. unfold external_snapshot. cbn.
  intros [= -> -> -> Hwords -> -> -> -> -> -> ->].
  f_equal. apply set_eq. intros x.
  by rewrite <- !elem_of_elements, Hwords.
Qed.

(** The comparison of a stored copy with the live snapshot of [s] is the
    equality of the copy with the external snapshot of [s], field by
    field. *)
Lemma snapshot_eqb_copy (s : session) (last : snapshot) :
  is_value_copy last →
  snapshot_eqb s last (safe_state_of s) = bool_decide (last = external_snapshot s).
Proof.
  intros [[tA HA] [tB HB]]. unfold snapshot_eqb.
  destruct last. cbn in HA, HB. subst. done.
Qed.

(** The unforced call that follows a forced publication and a change of
    the session to [s']. *)
Lemma emit_state_after_publish (w : world) (s' : session) :
  emit_state false (set_state s' (emit_state true w))
  = if bool_decide (external_snapshot (state w) = external_snapshot s')
    then set_state s' (emit_state true w)
    else mkWorld s' (Some (external_snapshot s')) (tasks w)
           (outbox (set_state s' (emit_state true w))
            ++ GameState (external_snapshot s') :: admin_secrets s').
Proof.
  unfold emit_state at 1. simpl.
  change (deepcopy (state w) (safe_state_of (state w)))
    with (snapshot_value (state w)).
  rewrite snapshot_eqb_value.
  rewrite (snapshot_value_fields (state w)), (snapshot_value_fields s').
  by case_bool_decide.
Qed.

(** C9.  Publishing twice with no mutation in between pushes nothing the
    second time, whatever the first call did.  A forced call always pushes
    the snapshot, which holds every field of the session at its current
    value, and keeps a copy by value of it.  The comparison with a stored
    copy is full structural equality: it succeeds exactly when every field
    of the copy equals that of the session.  So, after a forced
    publication and any change of the session, the unforced call skips
    exactly when the session is the one that was published, and otherwise
    pushes the new snapshot. *)
Theorem emit_state_change_detection (w : world) (force : bool) (s' : session) :
  emit_state false (emit_state force w) = emit_state force w
  ∧ outbox (emit_state true w)
    = outbox w ++ GameState (external_snapshot (state w))
               :: admin_secrets (state w)
  ∧ _last_emitted_state (emit_state true w) = Some (external_snapshot (state w))
  ∧ is_value_copy (external_snapshot (state w))
  ∧ (∀ last, is_value_copy last →
       _last_emitted_state w = Some last →
       (emit_state false w = w ↔ last = external_snapshot (state w)))
  ∧ (let w1 := set_state s' (emit_state true w) in
     (emit_state false w1 = w1 ↔ s' = state w)
     ∧ (s' ≠ state w →
        outbox (emit_state false w1)
        = outbox w1 ++ GameState (external_snapshot s') :: admin_secrets s')).
Proof.
  split_and!.
  - destruct (emit_state_last force w) as [Hsame | Hlast].
    + unfold emit_state in *. destruct force; simpl in *.
      * by apply outbox_grows in Hsame.
      * destruct (_last_emitted_state w) as [last|] eqn:Hl; simpl in *.
        -- destruct (snapshot_eqb (state w) last (safe_state_of (state w))) eqn:He.
           ++ by rewrite Hl, He.
           ++ by apply outbox_grows in Hsame.
        -- by apply outbox_grows in Hsame.
    + apply emit_state_skip. by rewrite emit_state_state.
  - done.
  - done.
  - split; eexists; reflexivity.
  - intros last Hcopy Hlast. unfold emit_state. rewrite Hlast. simpl.
    rewrite (snapshot_eqb_copy _ _ Hcopy).
    case_bool_decide as Heq; [done |].
    split; [| done]. intros Hsame. exfalso.
    by apply (outbox_grows w) in Hsame.
  - cbn zeta. rewrite (emit_state_after_publish w s').
    case_bool_decide as Heq.
    + apply external_snapshot_inj in Heq. by split.
    + split; [| done].
      split; [| by intros ->]. intros Hsame. exfalso.
      by apply (outbox_grows (set_state s' (emit_state true w))) in Hsame.
Qed.

(** ** The phase handlers that take no guard *)

(** The substring test of [on_scan_timeout] singles out the five phases
    the specification calls bonus phases. *)
Lemma bonus_in_phase_name (p : Phase) :
  str_in "bonus" (phase_name p) = any_bonus_phase p.
Proof. by destruct p. Qed.

(** C10.  [on_scan_timeout] rewrites the phase from every phase and reads
    neither the current phase against a scanning phase nor [round_id]:
    the new session is the old one with the phase replaced, by
    [bonus_scan_failed] when the phase name contains "bonus" and by
    [scan_failed] from the seven other phases. *)
Theorem on_scan_timeout_unguarded (w : world) :
  state (on_scan_timeout w)
  = set_phase
      (if str_in "bonus" (phase_name (phase (state w)))
       then BonusScanFailed else ScanFailed)
      (state w)
  ∧ phase (state (on_scan_timeout w))
    = match phase (state w) with
      | Intro | Idle | Countdown | Active | Scanning | ScanFailed | GameOver =>
          ScanFailed
      | BonusIntro | BonusCountdown | BonusActive | BonusScanning
      | BonusScanFailed => BonusScanFailed
      end
  ∧ round_id (state (on_scan_timeout w)) = round_id (state w).
Proof.
  unfold on_scan_timeout. rewrite emit_state_state. simpl.
  split_and!.
  - by destruct (str_in _ _).
  - by destruct (phase (state w)).
  - by destruct (str_in _ _).
Qed.

(** C6, as the code has it.  When the body of the request is a JSON
    object (or is missing, unreadable or false in Python), [start_game]
    leaves, from any session, both scores at [0], no word used, the phase
    [intro], the result cleared, the bonus flag down and [round_id] higher
    than before, and answers [{"ok": True}].  On any other body it answers
    with the error and status 500, resets none of these fields, starts no
    task and publishes nothing. *)
Theorem start_game_full_reset (body : request_body) (w : world) :
  match body with
  | JsonObject _ _ =>
      score (teamA (state (fst (start_game body w)))) = 0
      ∧ score (teamB (state (fst (start_game body w)))) = 0
      ∧ used_words (state (fst (start_game body w))) = ∅
      ∧ phase (state (fst (start_game body w))) = Intro
      ∧ last_result (state (fst (start_game body w))) = None
      ∧ bonus_submitted (state (fst (start_game body w))) = false
      ∧ round_id (state w) < round_id (state (fst (start_game body w)))
      ∧ snd (start_game body w) = JsonOk
  | JsonOther kind =>
      snd (start_game body w) = JsonError (no_get kind) 500
      ∧ teamA (state (fst (start_game body w))) = teamA (state w)
      ∧ teamB (state (fst (start_game body w))) = teamB (state w)
      ∧ used_words (state (fst (start_game body w))) = used_words (state w)
      ∧ current_team (state (fst (start_game body w))) = current_team (state w)
      ∧ phase (state (fst (start_game body w))) = phase (state w)
      ∧ last_result (state (fst (start_game body w))) = last_result (state w)
      ∧ last_trigger_at (state (fst (start_game body w)))
        = last_trigger_at (state w)
      ∧ winning_team (state (fst (start_game body w))) = winning_team (state w)
      ∧ bonus_submitted (state (fst (start_game body w)))
        = bonus_submitted (state w)
      ∧ round_id (state (fst (start_game body w))) = round_id (state w)
      ∧ tasks (fst (start_game body w)) = tasks w
      ∧ outbox (fst (start_game body w)) = outbox w
  end.
Proof.
  destruct body as [data_teamA data_teamB | kind].
  - unfold start_game. cbn [fst snd]. rewrite emit_state_state. simpl.
    split_and!; try done. lia.
  - by split_and!.
Qed.

(** C6 fails for a body that is not an object: with the array [[1]] as
    body, team A keeps its three points, the used word stays used, the
    round token stays where it was and the answer is the error with status
    500. *)
Lemma start_game_other_body_resets_nothing :
  score (teamA (state (fst (start_game (JsonOther JsonList) scored_world)))) = 3
  ∧ used_words (state (fst (start_game (JsonOther JsonList) scored_world)))
    = {[ "apple" ]}
  ∧ round_id (state (fst (start_game (JsonOther JsonList) scored_world)))
    = round_id (state scored_world)
  ∧ snd (start_game (JsonOther JsonList) scored_world)
    = JsonError "'list' object has no attribute 'get'" 500
  ∧ ¬ (score (teamA (state (fst (start_game (JsonOther JsonList) scored_world))))
       = 0
       ∧ snd (start_game (JsonOther JsonList) scored_world) = JsonOk).
Proof.
  split_and!; try reflexivity. by intros [_ ?].
Qed.

(** ** Word submission *)

Section submission.
Context (words : gset string).
Implicit Types (w : world) (data_word : string) (now : time) (n : nat).

Lemma points_by_len_table n :
  default 0 (POINTS_BY_LEN !! n)
  = match n with
    | 5%nat => 3 | 6%nat => 5 | 7%nat => 8 | 8%nat => 13 | _ => 0
    end.
Proof.
  do 9 (destruct n as [|n]; [done |]).
  unfold POINTS_BY_LEN.
  rewrite !lookup_insert_ne, lookup_singleton_ne by lia. done.
Qed.

Lemma points_by_len_nonneg n : 0 <= default 0 (POINTS_BY_LEN !! n).
Proof.
  rewrite points_by_len_table.
  do 9 (destruct n as [|n]; [lia |]). lia.
Qed.

Lemma bonus_pts_nonneg n : 0 <= bonus_pts n.
Proof. unfold bonus_pts. repeat case_match; lia. Qed.

Lemma bonus_round_phase_any (p : Phase) :
  bonus_round_phase p = true → any_bonus_phase p = true.
Proof. by destruct p. Qed.

Lemma team_score_add_score (k : TeamId) (pts : Z) (s : session) :
  team_score k (add_score k pts s) = team_score k s + pts.
Proof. by destruct k. Qed.

(** The standard branch, for every phase outside the gate of the bonus
    branch. *)
Lemma submit_standard data_word now w :
  bonus_round_phase (phase (state w)) = false →
  let word := lower (strip data_word) in
  let n := String.length word in
  let s := state w in
  let ok :=
    bool_decide ((5 ≤ n)%nat ∧ (word ∉ used_words s) ∧ (word ∈ words)) in
  let pts := if ok then default 0 (POINTS_BY_LEN !! n) else 0 in
  let why :=
    if (n <? 5)%nat then "too_short"
    else if bool_decide (word ∈ used_words s) then "duplicate"
    else if bool_decide (word ∈ words) then "ok"
    else "not_in_dictionary" in
  let s1 :=
    if ok then add_score (current_team s) pts
                 (set_used_words ({[word]} ∪ used_words s) s)
    else s in
  let s2 := set_last_result
              (Some (mkResult now word ok (Some n) (tier_for_len n) pts why)) s1 in
  submit words data_word now w
  = (emit_state false
       (start_background_task ClearResultSleep5
          (set_state (set_current_team (flip (current_team s))
                        (set_phase Idle s2)) w)),
     JsonSubmit ok pts why 200).
Proof.
  intros Hgate. simpl. unfold submit. rewrite Hgate.
  unfold MIN_WORD_LEN.
  destruct (String.length (lower (strip data_word)) <? 5)%nat eqn:Hlen.
  { apply Nat.ltb_lt in Hlen.
    rewrite bool_decide_eq_false_2 by (intros (? & _); lia). done. }
  apply Nat.ltb_ge in Hlen.
  destruct (decide (lower (strip data_word) ∈ used_words (state w))) as [Hu|Hu].
  { rewrite (bool_decide_eq_true_2 _ Hu).
    rewrite bool_decide_eq_false_2 by (intros (_ & ? & _); done). done. }
  rewrite (bool_decide_eq_false_2 _ Hu).
  destruct (decide (lower (strip data_word) ∈ words)) as [Hd|Hd].
  - rewrite (bool_decide_eq_true_2 _ Hd). simpl.
    rewrite bool_decide_eq_true_2 by done. done.
  - rewrite (bool_decide_eq_false_2 _ Hd). simpl.
    rewrite bool_decide_eq_false_2 by (intros (_ & _ & ?); done). done.
Qed.

(** C4.  A word submitted in a phase that is not a bonus phase is judged
    by the standard rules on its stripped, lower-cased form: it is valid
    exactly when it has at least 5 characters, is unused and is in the
    dictionary; the reason is the first failed check in the order
    too_short, duplicate, not_in_dictionary, and ok otherwise; a valid
    word joins [used_words] and its points go to the team that
    submitted; the turn passes to the other team either way; and the
    phase is [idle]. *)
Theorem submit_standard_round data_word now w :
  any_bonus_phase (phase (state w)) = false →
  let word := lower (strip data_word) in
  let n := String.length word in
  let s := state w in
  let s' := state (fst (submit words data_word now w)) in
  let r := snd (submit words data_word now w) in
  (valid r = true ↔ (5 ≤ n)%nat ∧ (word ∉ used_words s) ∧ (word ∈ words))
  ∧ ((n < 5)%nat → reason r = "too_short")
  ∧ ((5 ≤ n)%nat → word ∈ used_words s → reason r = "duplicate")
  ∧ ((5 ≤ n)%nat → word ∉ used_words s → word ∉ words →
     reason r = "not_in_dictionary")
  ∧ (valid r = true → reason r = "ok")
  ∧ (valid r = true →
     used_words s' = {[word]} ∪ used_words s
     ∧ team_score (current_team s) s' = team_score (current_team s) s + points r
     ∧ team_score (flip (current_team s)) s' = team_score (flip (current_team s)) s)
  ∧ (valid r = false →
     used_words s' = used_words s
     ∧ score (teamA s') = score (teamA s)
     ∧ score (teamB s') = score (teamB s))
  ∧ current_team s' = flip (current_team s)
  ∧ phase s' = Idle.
Proof.
  intros Hphase word n s.
  assert (bonus_round_phase (phase (state w)) = false) as Hgate.
  { destruct (bonus_round_phase _) eqn:Hb; [| done].
    apply bonus_round_phase_any in Hb. congruence. }
  rewrite (submit_standard data_word now w Hgate).
  cbn [fst snd]. rewrite emit_state_state. cbn [valid reason points].
  fold word. fold n. fold s.
  split_and!.
  - by rewrite bool_decide_eq_true.
  - intros Hlt. apply Nat.ltb_lt in Hlt. by rewrite Hlt.
  - intros Hge Hu. apply Nat.ltb_ge in Hge. rewrite Hge.
    by rewrite bool_decide_eq_true_2.
  - intros Hge Hu Hd. apply Nat.ltb_ge in Hge. rewrite Hge.
    by rewrite !bool_decide_eq_false_2.
  - intros (Hge & Hu & Hd)%bool_decide_eq_true.
    apply Nat.ltb_ge in Hge. rewrite Hge.
    by rewrite bool_decide_eq_false_2, bool_decide_eq_true_2.
  - intros Hok. rewrite Hok. simpl. by destruct (current_team s).
  - intros Hok. by rewrite Hok.
  - done.
  - done.
Qed.

(** The bonus branch, for the three phases of its gate, before the
    single submission. *)
Lemma submit_bonus data_word now w :
  bonus_round_phase (phase (state w)) = true →
  bonus_submitted (state w) = false →
  let word := lower (strip data_word) in
  let n := String.length word in
  let s := state w in
  let ok := bool_decide ((5 ≤ n)%nat ∧ (word ∈ words)) in
  let pts := if ok then bonus_pts n else 0 in
  let why :=
    if (n <? 5)%nat then "too_short"
    else if bool_decide (word ∈ words) then "BONUS_CLEARED"
    else "not_in_dictionary" in
  let s1 := if ok then add_score (current_team s) pts s else s in
  let s2 := set_last_result
              (Some (mkResult now word ok (Some n) (TierStr (pretty n)) pts why))
              s1 in
  submit words data_word now w
  = (emit_state false
       (start_background_task GameOverSleep12
          (set_state (set_phase BonusIntro (set_bonus_submitted true s2)) w)),
     JsonSubmit ok pts why 200).
Proof.
  intros Hgate Hflag. simpl. unfold submit. rewrite Hgate, Hflag.
  destruct (String.length (lower (strip data_word)) <? 5)%nat eqn:Hlen.
  { apply Nat.ltb_lt in Hlen.
    rewrite bool_decide_eq_false_2 by (intros (? & _); lia). done. }
  apply Nat.ltb_ge in Hlen.
  destruct (decide (lower (strip data_word) ∈ words)) as [Hd|Hd].
  - rewrite (bool_decide_eq_true_2 _ Hd). simpl.
    rewrite bool_decide_eq_true_2 by done. done.
  - rewrite (bool_decide_eq_false_2 _ Hd). simpl.
    rewrite bool_decide_eq_false_2 by (intros (_ & ?); done). done.
Qed.

(** The guard of the bonus branch: inside its gate, a second submission
    is refused and nothing changes. *)
Lemma submit_already_submitted data_word now w :
  bonus_round_phase (phase (state w)) = true →
  bonus_submitted (state w) = true →
  submit words data_word now w = (w, JsonSubmit false 0 "already_submitted" 400).
Proof. intros Hgate Hflag. unfold submit. by rewrite Hgate, Hflag. Qed.

(** C2, as the code has it.  In [bonus_active], [bonus_scanning] and
    [bonus_scan_failed], with the bonus flag down, [submit] applies the
    bonus logic whether the word is valid or not: it records the result
    of the word, raises the flag, moves to [bonus_intro] and starts the
    game-over task. *)
Theorem submit_bonus_round data_word now w :
  bonus_round_phase (phase (state w)) = true →
  bonus_submitted (state w) = false →
  let w' := fst (submit words data_word now w) in
  let r := snd (submit words data_word now w) in
  bonus_logic_applied w w'
  ∧ ∃ res, last_result (state w') = Some res
           ∧ r_word res = lower (strip data_word)
           ∧ r_valid res = valid r
           ∧ r_points res = points r
           ∧ r_reason res = reason r.
Proof.
  intros Hgate Hflag.
  rewrite (submit_bonus data_word now w Hgate Hflag). cbn [fst snd].
  unfold bonus_logic_applied.
  rewrite emit_state_state, emit_state_tasks. simpl.
  split_and!; try done. eexists. split_and!; done.
Qed.

End submission.

(** ** Background timers and the round token *)

Section timers.
Implicit Types (w : world) (t : task) (now : time) (r : Z).

(** The three tasks that compare [round_id] do nothing to the session,
    and start no task, once the token has moved. *)
Lemma stale_timer_inert t r now w :
  captured_round_id t = Some r →
  round_id (state w) ≠ r →
  state (fst (run_task t now w)) = state w
  ∧ tasks (fst (run_task t now w)) = tasks w.
Proof.
  intros Hcap Hstale.
  destruct t; simplify_eq/=;
    unfold do_countdown, do_bonus_round, scan_watchdog;
    rewrite (bool_decide_eq_false_2 (round_id (state w) = r)) by done;
    rewrite ?andb_false_r; cbn [negb andb fst];
    rewrite ?emit_state_state, ?emit_state_tasks; done.
Qed.

(** [transition_to_game_over] checks nothing. *)
Lemma transition_to_game_over_unguarded w :
  state (transition_to_game_over w) = set_phase GameOver (state w).
Proof. unfold transition_to_game_over. by rewrite emit_state_state. Qed.

(** [clear_result_after_delay] checks the phase only. *)
Lemma clear_result_after_delay_idle w :
  phase (state w) = Idle →
  state (clear_result_after_delay w) = set_last_result None (state w).
Proof.
  intros Hidle. unfold clear_result_after_delay.
  rewrite emit_state_state. simpl. by rewrite bool_decide_eq_true_2.
Qed.

(** No timer touches a team dictionary, the debounce anchor or the round
    token. *)
Lemma run_task_frame t now w :
  teamA (state (fst (run_task t now w))) = teamA (state w)
  ∧ teamB (state (fst (run_task t now w))) = teamB (state w)
  ∧ last_trigger_at (state (fst (run_task t now w))) = last_trigger_at (state w)
  ∧ round_id (state (fst (run_task t now w))) = round_id (state w).
Proof.
  destruct t; cbn [run_task];
    unfold do_countdown, do_bonus_round, scan_watchdog,
      clear_result_after_delay, transition_to_game_over;
    repeat case_match; cbn [fst];
    rewrite ?emit_state_state; done.
Qed.

Lemma run_task_teams t now w :
  teamA (state (fst (run_task t now w))) = teamA (state w)
  ∧ teamB (state (fst (run_task t now w))) = teamB (state w).
Proof. destruct (run_task_frame t now w) as (? & ? & _). done. Qed.

Lemma fire_state i now w t :
  tasks w !! i = Some t →
  state (fire i now w) = state (fst (run_task t now w)).
Proof. intros Ht. unfold fire. rewrite Ht. by destruct (run_task t now w). Qed.

Lemma fire_none i now w : tasks w !! i = None → fire i now w = w.
Proof. intros Ht. unfold fire. by rewrite Ht. Qed.
End timers.

(** ** Scores *)

Section scores.
Context (words : gset string).
Implicit Types (w : world) (e : event) (es : list event).

Lemma scores_le_refl (s : session) : scores_le s s.
Proof. unfold scores_le. lia. Qed.

Lemma scores_le_trans (s1 s2 s3 : session) :
  scores_le s1 s2 → scores_le s2 s3 → scores_le s1 s3.
Proof. unfold scores_le. lia. Qed.

Lemma scores_le_teams (s s' : session) :
  teamA s' = teamA s → teamB s' = teamB s → scores_le s s'.
Proof. intros HA HB. unfold scores_le. rewrite HA, HB. lia. Qed.

Lemma scores_le_add_score (k : TeamId) (pts : Z) (s : session) :
  0 <= pts → scores_le s (add_score k pts s).
Proof. intros Hpts. unfold scores_le. destruct k; simpl; lia. Qed.

Lemma submit_scores_le data_word now w :
  scores_le (state w) (state (fst (submit words data_word now w))).
Proof.
  destruct (bonus_round_phase (phase (state w))) eqn:Hgate.
  - destruct (bonus_submitted (state w)) eqn:Hflag.
    { rewrite (submit_already_submitted words data_word now w Hgate Hflag).
      apply scores_le_refl. }
    rewrite (submit_bonus words data_word now w Hgate Hflag).
    cbn [fst]. rewrite emit_state_state. simpl.
    case_bool_decide; [| by apply scores_le_teams].
    pose proof (bonus_pts_nonneg (String.length (lower (strip data_word)))).
    unfold scores_le. destruct (current_team (state w)); simpl; lia.
  - rewrite (submit_standard words data_word now w Hgate).
    cbn [fst]. rewrite emit_state_state. simpl.
    case_bool_decide; [| by apply scores_le_teams].
    pose proof (points_by_len_nonneg (String.length (lower (strip data_word)))).
    unfold scores_le. destruct (current_team (state w)); simpl; lia.
Qed.

Lemma on_trigger_teams now w :
  teamA (state (on_trigger now w)) = teamA (state w)
  ∧ teamB (state (on_trigger now w)) = teamB (state w).
Proof.
  unfold on_trigger. case_bool_decide; [done |].
  rewrite emit_state_state. cbn [set_last_trigger_at phase].
  by destruct (phase (state w)).
Qed.

Lemma step_scores_le e w :
  zeroes_scores e = false →
  scores_le (state w) (state (step words e w)).
Proof.
  intros He. destruct e; try done; cbn [step];
    try apply scores_le_refl.
  - unfold init_bonus. cbn [fst]. rewrite emit_state_state.
    apply scores_le_teams; by case_bool_decide.
  - apply submit_scores_le.
  - by apply scores_le_teams; apply on_trigger_teams.
  - unfold on_trigger_snapshot. rewrite emit_state_state.
    apply scores_le_teams; by repeat case_bool_decide.
  - unfold on_scan_timeout. rewrite emit_state_state.
    apply scores_le_teams; by case_match.
  - destruct (tasks w !! i) as [t|] eqn:Ht.
    + rewrite (fire_state _ _ _ _ Ht).
      by apply scores_le_teams; apply run_task_teams.
    + rewrite fire_none by done. apply scores_le_refl.
Qed.

(** The two handlers that write the scores write zero. *)
Lemma reset_game_zeroes w :
  score (teamA (state (fst (reset_game w)))) = 0
  ∧ score (teamB (state (fst (reset_game w)))) = 0.
Proof. unfold reset_game. cbn [fst]. by rewrite emit_state_state. Qed.

(** C3, as the code has it.  Along every sequence of events that holds
    neither [start_game] nor [reset_game], no score goes down; this
    covers [init_bonus], every submission, every socket event and every
    firing of a timer. *)
Theorem scores_non_decreasing es w :
  Forall (λ e, zeroes_scores e = false) es →
  scores_le (state w) (state (run words es w)).
Proof.
  intros Hes. revert w.
  induction Hes as [| e es He _ IH]; intros w.
  - apply scores_le_refl.
  - cbn. eapply scores_le_trans; [by apply step_scores_le | apply IH].
Qed.
End scores.

(** ** The round token and the debounce anchor along a run *)

Section tokens.
Context (words : gset string).
Implicit Types (w : world) (e : event) (es : list event) (now : time).

Lemma run_cons e es w : run words (e :: es) w = run words es (step words e w).
Proof. done. Qed.

(** [submit] writes neither [last_trigger_at] nor [round_id]. *)
Lemma submit_frame data_word now w :
  last_trigger_at (state (fst (submit words data_word now w)))
  = last_trigger_at (state w)
  ∧ round_id (state (fst (submit words data_word now w))) = round_id (state w).
Proof.
  destruct (bonus_round_phase (phase (state w))) eqn:Hgate.
  - destruct (bonus_submitted (state w)) eqn:Hflag.
    { by rewrite (submit_already_submitted words data_word now w Hgate Hflag). }
    rewrite (submit_bonus words data_word now w Hgate Hflag).
    cbn [fst]. rewrite emit_state_state. simpl.
    case_bool_decide; [| done]. by destruct (current_team (state w)).
  - rewrite (submit_standard words data_word now w Hgate).
    cbn [fst]. rewrite emit_state_state. simpl.
    case_bool_decide; [| done]. by destruct (current_team (state w)).
Qed.

Lemma step_last_trigger_at e w :
  moves_anchor e = false →
  last_trigger_at (state (step words e w)) = last_trigger_at (state w).
Proof.
  intros He. destruct e; try done; cbn [step].
  - unfold init_bonus. cbn [fst]. rewrite emit_state_state.
    by case_bool_decide.
  - unfold reset_game. cbn [fst]. by rewrite emit_state_state.
  - apply submit_frame.
  - unfold on_trigger_snapshot. rewrite emit_state_state.
    by repeat case_bool_decide.
  - unfold on_scan_timeout. rewrite emit_state_state. by case_match.
  - destruct (tasks w !! i) as [t|] eqn:Ht.
    + rewrite (fire_state _ _ _ _ Ht). apply run_task_frame.
    + by rewrite fire_none.
Qed.

Lemma run_last_trigger_at es w :
  Forall (λ e, moves_anchor e = false) es →
  last_trigger_at (state (run words es w)) = last_trigger_at (state w).
Proof.
  intros Hes. revert w.
  induction Hes as [| e es He _ IH]; intros w; [done |].
  rewrite run_cons, IH. by apply step_last_trigger_at.
Qed.

Lemma on_trigger_round_id now w :
  round_id (state w) <= round_id (state (on_trigger now w)).
Proof.
  unfold on_trigger. case_bool_decide; [done |].
  rewrite emit_state_state. cbn [set_last_trigger_at phase].
  destruct (phase (state w)); simpl; lia.
Qed.

Lemma step_round_id e w : round_id (state w) <= round_id (state (step words e w)).
Proof.
  destruct e; cbn [step].
  - unfold start_game.
    destruct body; cbn [fst]; rewrite ?emit_state_state; simpl; lia.
  - unfold init_bonus. cbn [fst]. rewrite emit_state_state.
    by case_bool_decide.
  - unfold reset_game. cbn [fst]. by rewrite emit_state_state.
  - by rewrite (proj2 (submit_frame _ _ _)).
  - apply on_trigger_round_id.
  - unfold on_trigger_snapshot. rewrite emit_state_state.
    by repeat case_bool_decide.
  - unfold on_scan_timeout. rewrite emit_state_state. by case_match.
  - done.
  - unfold on_connect. by rewrite emit_state_state.
  - destruct (tasks w !! i) as [t|] eqn:Ht.
    + rewrite (fire_state _ _ _ _ Ht).
      by rewrite (proj2 (proj2 (proj2 (run_task_frame _ _ _)))).
    + by rewrite fire_none.
Qed.

(** [round_id] never goes down. *)
Lemma round_id_non_decreasing es w :
  round_id (state w) <= round_id (state (run words es w)).
Proof.
  revert w. induction es as [| e es IH]; intros w; [done |].
  rewrite run_cons. etrans; [apply (step_round_id e) | apply IH].
Qed.

(** Hence a timer of the three checking kinds that has once been left
    behind by [round_id] stays inert for the rest of the run. *)
Lemma stale_timer_stays_inert (t : task) (r : Z) es now w :
  captured_round_id t = Some r →
  r < round_id (state w) →
  state (fst (run_task t now (run words es w))) = state (run words es w)
  ∧ tasks (fst (run_task t now (run words es w))) = tasks (run words es w).
Proof.
  intros Hcap Hstale. apply (stale_timer_inert t r); [done |].
  pose proof (round_id_non_decreasing es w). lia.
Qed.

(** ** The debounce of [on_trigger] *)

(** A trigger inside the cooldown returns from inside the lock: nothing
    is written, no task is started, nothing is published. *)
Lemma on_trigger_dropped now w :
  (now - last_trigger_at (state w) < 2)%Qc → on_trigger now w = w.
Proof. intros Hnear. unfold on_trigger. by rewrite bool_decide_eq_true_2. Qed.

(** A trigger outside the cooldown becomes the new anchor, in every
    phase. *)
Lemma on_trigger_accepted now w :
  (2 <= now - last_trigger_at (state w))%Qc →
  last_trigger_at (state (on_trigger now w)) = now.
Proof.
  intros Hfar. unfold on_trigger.
  rewrite bool_decide_eq_false_2 by by apply Qcle_not_lt.
  rewrite emit_state_state. cbn [set_last_trigger_at phase].
  by destruct (phase (state w)).
Qed.

Lemma cooldown_self now : (now - now < 2)%Qc.
Proof. by replace (now - now)%Qc with 0%Qc by ring. Qed.

(** C7, as the code has it.  The cooldown is counted from the last
    accepted trigger.  When a trigger at [t1] is accepted, it becomes the
    anchor and stays the anchor through every event other than another
    trigger and [start_game]; a trigger arriving at [t2], less than 2 time
    units after [t1], then changes nothing at all: same session (with the
    same anchor), same tasks, nothing published.  A trigger is dropped in
    exactly that case. *)
Theorem on_trigger_debounce (t1 t2 : time) es w :
  (2 <= t1 - last_trigger_at (state w))%Qc →
  (t2 - t1 < 2)%Qc →
  Forall (λ e, moves_anchor e = false) es →
  last_trigger_at (state (run words es (on_trigger t1 w))) = t1
  ∧ on_trigger t2 (run words es (on_trigger t1 w))
    = run words es (on_trigger t1 w)
  ∧ ∀ now, (now - t1 < 2)%Qc
           ↔ on_trigger now (run words es (on_trigger t1 w))
             = run words es (on_trigger t1 w).
Proof.
  intros Hfar Hnear Hes.
  assert (last_trigger_at (state (run words es (on_trigger t1 w))) = t1)
    as Hanchor.
  { rewrite run_last_trigger_at by done. by apply on_trigger_accepted. }
  split_and!; [done | apply on_trigger_dropped; by rewrite Hanchor |].
  intros now. split.
  - intros Hnow. apply on_trigger_dropped. by rewrite Hanchor.
  - intros Hsame.
    destruct (Qclt_le_dec (now - t1) 2) as [Hlt | Hge]; [done |].
    assert (last_trigger_at
              (state (on_trigger now (run words es (on_trigger t1 w)))) = now)
      as Hnew by (apply on_trigger_accepted; by rewrite Hanchor).
    rewrite Hsame, Hanchor in Hnew. subst now. apply cooldown_self.
Qed.
End tokens.

(** ** Scenarios *)

(** C1.  The round token does not retire the two timers that never read
    it.  A bonus word is submitted, which starts the game-over task, and a
    new game is started while that task sleeps: [round_id] has moved, the
    session is back in [intro], and when the task wakes it still puts the
    new game in [game_over].  Likewise the result-clearing task of one
    round, waking after the next round has been started and scored, wipes
    the result of that later round. *)
Theorem stale_timers_still_fire :
  (tasks bonus_done_world !! 1%nat = Some GameOverSleep12
   ∧ tasks restarted_world !! 1%nat = Some GameOverSleep12
   ∧ round_id (state bonus_done_world) < round_id (state restarted_world)
   ∧ phase (state restarted_world) = Intro
   ∧ guarded_fields (state (fire 1 (sec 32) restarted_world))
     ≠ guarded_fields (state restarted_world)
   ∧ phase (state (fire 1 (sec 32) restarted_world)) = GameOver)
  ∧ (tasks first_word_scored !! 0%nat = Some ClearResultSleep5
     ∧ tasks second_word_scored !! 0%nat = Some ClearResultSleep5
     ∧ round_id (state first_word_scored) < round_id (state second_word_scored)
     ∧ r_word <$> last_result (state second_word_scored) = Some "grape"
     ∧ guarded_fields (state (fire 0 (sec 16) second_word_scored))
       ≠ guarded_fields (state second_word_scored)
     ∧ last_result (state (fire 0 (sec 16) second_word_scored)) = None).
Proof.
  split; split_and!; try reflexivity.
  - intros Heq. apply (f_equal (λ x, fst (fst (fst x)))) in Heq.
    vm_compute in Heq. discriminate.
  - intros Heq. apply (f_equal snd) in Heq.
    vm_compute in Heq. discriminate.
Qed.

(** C2 fails in [bonus_intro]: right after [init_bonus] the flag is down,
    and a submitted word takes the standard branch, which leaves the
    session in [idle]. *)
Lemma submit_in_bonus_intro_is_standard :
  any_bonus_phase (phase (state after_init_bonus)) = true
  ∧ bonus_submitted (state after_init_bonus) = false
  ∧ ¬ bonus_logic_applied after_init_bonus
        (fst (submit demo_words "apple" (sec 20) after_init_bonus)).
Proof.
  split_and!; [reflexivity | reflexivity |].
  intros (_ & _ & Hphase & _). vm_compute in Hphase. discriminate.
Qed.

(** The bonus branch on the word "apple" in [bonus_active]. *)
Lemma submit_bonus_round_witness :
  bonus_round_phase (phase (state bonus_active_world)) = true
  ∧ bonus_submitted (state bonus_active_world) = false
  ∧ bonus_logic_applied bonus_active_world
      (fst (submit demo_words "apple" (sec 20) bonus_active_world)).
Proof.
  split_and!; [reflexivity | reflexivity |].
  apply (submit_bonus_round demo_words "apple" (sec 20) bonus_active_world);
    reflexivity.
Defined.

(** C3 fails for [reset_game]: it is not [start_game], and it takes the
    three points of team A away. *)
Lemma reset_game_lowers_score :
  is_start_game ResetGame = false
  ∧ score (teamA (state scored_world)) = 3
  ∧ score (teamA (state (step demo_words ResetGame scored_world))) = 0
  ∧ ¬ scores_le (state scored_world)
        (state (step demo_words ResetGame scored_world)).
Proof.
  split_and!; [reflexivity | reflexivity | reflexivity |].
  intros [HA _]. vm_compute in HA. by apply HA.
Qed.

(** A run with a scored word, [init_bonus], a trigger and a timer. *)
Lemma scores_non_decreasing_witness :
  Forall (λ e, zeroes_scores e = false) quiet_run
  ∧ scores_le (state initial_world) (state (run demo_words quiet_run initial_world)).
Proof.
  split.
  - repeat constructor.
  - apply (scores_non_decreasing demo_words). repeat constructor.
Defined.

(** The word " Apple " submitted to the fresh session. *)
Lemma submit_standard_round_witness :
  any_bonus_phase (phase (state initial_world)) = false
  ∧ (valid (snd (submit demo_words " Apple " (sec 11) initial_world)) = true
     ↔ (5 ≤ String.length (lower (strip " Apple ")))%nat
       ∧ (lower (strip " Apple ") ∉ used_words (state initial_world))
       ∧ (lower (strip " Apple ") ∈ demo_words))
  ∧ current_team (state (fst (submit demo_words " Apple " (sec 11) initial_world)))
    = TeamB
  ∧ phase (state (fst (submit demo_words " Apple " (sec 11) initial_world))) = Idle.
Proof.
  split; [reflexivity |].
  destruct (submit_standard_round demo_words " Apple " (sec 11) initial_world)
    as (Hvalid & _ & _ & _ & _ & _ & _ & Hteam & Hphase); [reflexivity |].
  split_and!; [exact Hvalid | exact Hteam | exact Hphase].
Defined.


(** C7 fails when the first trigger of the pair was itself dropped: the
    triggers at 11.5 and 12.5 are one time unit apart, the one at 11.5
    fell in the cooldown of the trigger accepted at 10, and the one at
    12.5 is accepted and starts the countdown. *)
Lemma trigger_after_dropped_trigger :
  (half_past 12 - half_past 11 < 2)%Qc
  ∧ on_trigger (half_past 12) cooldown_world ≠ cooldown_world.
Proof.
  split; [reflexivity |].
  intros Hsame. apply (f_equal (λ x, phase (state x))) in Hsame.
  vm_compute in Hsame. discriminate.
Qed.

(** A trigger accepted at 10, a word scored at 11, a trigger at 11.5. *)
Lemma on_trigger_debounce_witness :
  (2 <= sec 10 - last_trigger_at (state initial_world))%Qc
  ∧ (half_past 11 - sec 10 < 2)%Qc
  ∧ Forall (λ e, moves_anchor e = false) [Submit "apple" (sec 11)]
  ∧ on_trigger (half_past 11)
      (run demo_words [Submit "apple" (sec 11)] (on_trigger (sec 10) initial_world))
    = run demo_words [Submit "apple" (sec 11)] (on_trigger (sec 10) initial_world).
Proof.
  assert (2 <= sec 10 - last_trigger_at (state initial_world))%Qc as Hfar
    by (vm_compute; discriminate).
  assert (half_past 11 - sec 10 < 2)%Qc as Hnear by reflexivity.
  assert (Forall (λ e, moves_anchor e = false) [Submit "apple" (sec 11)])
    as Hquiet by repeat constructor.
  split_and!; [exact Hfar | exact Hnear | exact Hquiet |].
  exact (proj1 (proj2
    (on_trigger_debounce demo_words (sec 10) (half_past 11)
       [Submit "apple" (sec 11)] initial_world Hfar Hnear Hquiet))).
Defined.

(** C8.  The state every bonus submission leaves behind is [bonus_intro]
    with the flag up, which is outside the gate of the bonus branch: the
    word that follows is not refused but scored by the standard rules. *)
Theorem second_bonus_submission_scored :
  any_bonus_phase (phase (state bonus_done_world)) = true
  ∧ bonus_submitted (state bonus_done_world) = true
  ∧ snd (submit demo_words "grape" (sec 21) bonus_done_world)
    = JsonSubmit true 3 "ok" 200
  ∧ score (teamA (state bonus_done_world)) = 7
  ∧ score (teamA (state (fst (submit demo_words "grape" (sec 21) bonus_done_world))))
    = 10
  ∧ phase (state (fst (submit demo_words "grape" (sec 21) bonus_done_world))) = Idle
  ∧ used_words (state (fst (submit demo_words "grape" (sec 21) bonus_done_world)))
    = {[ "grape" ]}.
Proof. split_and!; reflexivity. Qed.

(** * Further properties of the code *)

(** ** Normal forms of words *)

Section normal_forms.
Implicit Types (s : string) (c : ascii).

Lemma lower_char_idemp c : lower_char (lower_char c) = lower_char c.
Proof. by destruct c as [[] [] [] [] [] [] [] []]. Qed.

Lemma is_space_lower_char c : is_space (lower_char c) = is_space c.
Proof. by destruct c as [[] [] [] [] [] [] [] []]. Qed.

Lemma lower_idemp s : lower (lower s) = lower s.
Proof.
  induction s as [|c s IH]; simpl; [done |].
  by rewrite lower_char_idemp, IH.
Qed.

Lemma length_lower s : String.length (lower s) = String.length s.
Proof. induction s as [|c s IH]; simpl; [done |]. by rewrite IH. Qed.

Lemma lstrip_lower s : lstrip (lower s) = lower (lstrip s).
Proof.
  induction s as [|c s IH]; simpl; [done |].
  rewrite is_space_lower_char. by destruct (is_space c).
Qed.

Lemma rstrip_lower s : rstrip (lower s) = lower (rstrip s).
Proof.
  induction s as [|c s IH]; simpl; [done |].
  rewrite IH, is_space_lower_char.
  destruct (rstrip s); simpl; [by destruct (is_space c) | done].
Qed.

Lemma strip_lower s : strip (lower s) = lower (strip s).
Proof. unfold strip. by rewrite lstrip_lower, rstrip_lower. Qed.

Lemma lstrip_starts_clean s : starts_clean (lstrip s).
Proof.
  induction s as [|c s IH]; simpl; [done |].
  by destruct (is_space c) eqn:Hc.
Qed.

Lemma lstrip_clean s : starts_clean s → lstrip s = s.
Proof. destruct s; simpl; [done |]. by intros ->. Qed.

Lemma rstrip_starts_clean s : starts_clean s → starts_clean (rstrip s).
Proof.
  destruct s as [|c s]; simpl; [done |]. intros Hc.
  destruct (rstrip s); simpl; [by rewrite Hc | done].
Qed.

Lemma rstrip_idemp s : rstrip (rstrip s) = rstrip s.
Proof.
  induction s as [|c s IH]; simpl; [done |].
  destruct (rstrip s) as [|d r] eqn:Hr.
  - destruct (is_space c) eqn:Hc; simpl; [done |]. by rewrite Hc.
  - simpl in *. by rewrite IH.
Qed.

Lemma strip_idemp s : strip (strip s) = strip s.
Proof.
  unfold strip. rewrite (lstrip_clean (rstrip (lstrip s))).
  - apply rstrip_idemp.
  - apply rstrip_starts_clean, lstrip_starts_clean.
Qed.

Lemma normalise_idemp s : lower (strip (lower (strip s))) = lower (strip s).
Proof. by rewrite strip_lower, strip_idemp, lower_idemp. Qed.
End normal_forms.

(** ** The dictionary and [submit] *)

Section dictionary.
Implicit Types (w : world) (now : time) (line data_word word : string).

Lemma elem_of_load_words (lines : list string) word :
  word ∈ load_words (Some lines)
  ↔ ∃ line, line ∈ lines
            ∧ (5 ≤ String.length (strip line))%nat
            ∧ word = lower (strip line).
Proof.
  unfold load_words, MIN_WORD_LEN.
  rewrite elem_of_list_to_set, list_elem_of_fmap.
  split.
  - intros (line & -> & (Hlen & Hin)%list_elem_of_filter). by exists line.
  - intros (line & Hin & Hlen & ->). exists line.
    split; [done |]. by apply list_elem_of_filter.
Qed.

(** X1.  Whatever the file holds, every word of the dictionary has at
    least five characters and is its own stripped, lower-cased form, the
    form in which [submit] looks words up. *)
Theorem load_words_normal_form (file : option (list string)) word :
  word ∈ load_words file →
  (5 ≤ String.length word)%nat ∧ lower (strip word) = word.
Proof.
  destruct file as [lines |]; [| by intros ?%not_elem_of_empty].
  intros (line & _ & Hlen & ->)%elem_of_load_words.
  split; [by rewrite length_lower | apply normalise_idemp].
Qed.

(** A line of three characters is left out, a padded capitalised one is
    taken in its normal form. *)
Lemma load_words_normal_form_witness :
  "apple" ∈ load_words (Some demo_lines)
  ∧ (5 ≤ String.length "apple")%nat ∧ lower (strip "apple") = "apple".
Proof.
  assert ("apple" ∈ load_words (Some demo_lines)) as Hin
    by (apply (bool_decide_unpack _); vm_compute; exact I).
  split; [exact Hin |].
  exact (load_words_normal_form (Some demo_lines) "apple" Hin).
Defined.

(** X2.  A line of the word file with five characters or more between
    its white space is accepted when it is submitted as it stands in a
    phase of the standard branch, unless its word was used before. *)
Theorem dictionary_line_accepted (lines : list string) line now w :
  line ∈ lines →
  (5 ≤ String.length (strip line))%nat →
  bonus_round_phase (phase (state w)) = false →
  lower (strip line) ∉ used_words (state w) →
  snd (submit (load_words (Some lines)) line now w)
  = JsonSubmit true
      (default 0 (POINTS_BY_LEN !! String.length (strip line))) "ok" 200.
Proof.
  intros Hin Hlen Hgate Hfresh.
  assert (lower (strip line) ∈ load_words (Some lines)) as Hdict
    by (apply elem_of_load_words; by exists line).
  rewrite (submit_standard _ line now w Hgate). cbn [snd].
  rewrite length_lower.
  rewrite bool_decide_eq_true_2 by done.
  rewrite (proj2 (Nat.ltb_ge _ _) Hlen).
  by rewrite (bool_decide_eq_false_2 _ Hfresh), (bool_decide_eq_true_2 _ Hdict).
Qed.

(** X3.  When the word file could not be read the dictionary is empty,
    and no submission is ever valid: it scores nothing and leaves both
    team dictionaries as they were. *)
Theorem no_dictionary_no_points data_word now w :
  valid (snd (submit (load_words None) data_word now w)) = false
  ∧ points (snd (submit (load_words None) data_word now w)) = 0
  ∧ teamA (state (fst (submit (load_words None) data_word now w)))
    = teamA (state w)
  ∧ teamB (state (fst (submit (load_words None) data_word now w)))
    = teamB (state w).
Proof.
  cbn [load_words].
  destruct (bonus_round_phase (phase (state w))) eqn:Hgate.
  - destruct (bonus_submitted (state w)) eqn:Hflag.
    { by rewrite (submit_already_submitted _ data_word now w Hgate Hflag). }
    rewrite (submit_bonus _ data_word now w Hgate Hflag).
    cbn [fst snd valid points]. rewrite emit_state_state.
    by rewrite bool_decide_eq_false_2 by (intros (_ & ?%not_elem_of_empty); done).
  - rewrite (submit_standard _ data_word now w Hgate).
    cbn [fst snd valid points]. rewrite emit_state_state.
    by rewrite bool_decide_eq_false_2
      by (intros (_ & _ & ?%not_elem_of_empty); done).
Qed.

(** X4.  [submit] judges the stripped, lower-cased word only, and that
    form is stable: submitting the word in the form in which it was
    recorded gives the same world and the same answer as the raw text. *)
Theorem submit_normal_form (words : gset string) data_word now w :
  submit words (lower (strip data_word)) now w = submit words data_word now w.
Proof. unfold submit. by rewrite normalise_idemp. Qed.
End dictionary.

(** ** What a run does to the used words, the round token and the scores *)

Section runs.
Context (words : gset string).
Implicit Types (w : world) (e : event) (es : list event) (now : time).
Implicit Types (data_word : string).

Lemma run_task_used_words (t : task) now w :
  used_words (state (fst (run_task t now w))) = used_words (state w).
Proof.
  destruct t; cbn [run_task];
    unfold do_countdown, do_bonus_round, scan_watchdog,
      clear_result_after_delay, transition_to_game_over;
    repeat case_match; cbn [fst];
    rewrite ?emit_state_state; done.
Qed.

Lemma on_trigger_used_words now w :
  used_words (state (on_trigger now w)) = used_words (state w).
Proof.
  unfold on_trigger. case_bool_decide; [done |].
  rewrite emit_state_state. cbn [set_last_trigger_at phase].
  by destruct (phase (state w)).
Qed.

(** What [submit] does to [used_words]: the standard branch adds the word
    it found valid, and nothing else is ever added. *)
Lemma submit_used_words data_word now w :
  used_words (state (fst (submit words data_word now w)))
  = if negb (bonus_round_phase (phase (state w)))
       && valid (snd (submit words data_word now w))
    then {[lower (strip data_word)]} ∪ used_words (state w)
    else used_words (state w).
Proof.
  destruct (bonus_round_phase (phase (state w))) eqn:Hgate.
  - destruct (bonus_submitted (state w)) eqn:Hflag.
    { by rewrite (submit_already_submitted words data_word now w Hgate Hflag). }
    rewrite (submit_bonus words data_word now w Hgate Hflag).
    cbn [fst negb andb]. rewrite emit_state_state. simpl.
    case_bool_decide; [| done]. by destruct (current_team (state w)).
  - rewrite (submit_standard words data_word now w Hgate).
    cbn [fst snd valid negb andb]. rewrite emit_state_state. simpl.
    case_bool_decide; [| done]. by destruct (current_team (state w)).
Qed.

Lemma step_used_words e w :
  used_words (state (step words e w))
  = match e with
    | StartGame (JsonObject _ _) => ∅
    | Submit data_word now =>
        if negb (bonus_round_phase (phase (state w)))
           && valid (snd (submit words data_word now w))
        then {[lower (strip data_word)]} ∪ used_words (state w)
        else used_words (state w)
    | _ => used_words (state w)
    end.
Proof.
  destruct e as [body | | | | | | | | |]; cbn [step]; try done.
  - unfold start_game.
    destruct body; cbn [fst]; by rewrite ?emit_state_state.
  - unfold init_bonus. cbn [fst]. rewrite emit_state_state.
    by case_bool_decide.
  - unfold reset_game. cbn [fst]. by rewrite emit_state_state.
  - apply submit_used_words.
  - apply on_trigger_used_words.
  - unfold on_trigger_snapshot. rewrite emit_state_state.
    by repeat case_bool_decide.
  - unfold on_scan_timeout. rewrite emit_state_state. by case_match.
  - destruct (tasks w !! i) as [t|] eqn:Ht.
    + rewrite (fire_state _ _ _ _ Ht). apply run_task_used_words.
    + by rewrite fire_none.
Qed.

Lemma step_used_words_mono e w :
  is_start_game e = false →
  used_words (state w) ⊆ used_words (state (step words e w)).
Proof.
  intros He. rewrite step_used_words.
  destruct e; try done. case_match; set_solver.
Qed.

Lemma run_used_words_mono es w :
  Forall (λ e, is_start_game e = false) es →
  used_words (state w) ⊆ used_words (state (run words es w)).
Proof.
  intros Hes. revert w.
  induction Hes as [| e es He _ IH]; intros w; [done |].
  rewrite run_cons. etrans; [by apply step_used_words_mono | apply IH].
Qed.

(** X5.  [used_words] changes in three ways only: a [start_game] that gets
    past its body empties it, a valid submission in the standard branch adds its word, and
    every other event, [reset_game] and the bonus branch among them,
    leaves it as it is. *)
Theorem used_words_changes e w :
  used_words (state (step words e w))
  = match e with
    | StartGame (JsonObject _ _) => ∅
    | Submit data_word now =>
        if negb (bonus_round_phase (phase (state w)))
           && valid (snd (submit words data_word now w))
        then {[lower (strip data_word)]} ∪ used_words (state w)
        else used_words (state w)
    | _ => used_words (state w)
    end.
Proof. apply step_used_words. Qed.

(** X6.  Once a word has been scored in the standard branch, the same
    word, in any spelling with the same stripped lower-cased form, is a
    duplicate for the rest of the game: whatever happens in between short
    of [start_game], a later submission in the standard branch answers
    [duplicate] with no points and leaves both teams as they are. *)
Theorem duplicate_until_start_game data_word data_word' now now' es w :
  bonus_round_phase (phase (state w)) = false →
  valid (snd (submit words data_word now w)) = true →
  lower (strip data_word') = lower (strip data_word) →
  Forall (λ e, is_start_game e = false) es →
  bonus_round_phase
    (phase (state (run words es (fst (submit words data_word now w))))) = false →
  snd (submit words data_word' now'
         (run words es (fst (submit words data_word now w))))
  = JsonSubmit false 0 "duplicate" 200
  ∧ teamA (state (fst (submit words data_word' now'
                         (run words es (fst (submit words data_word now w))))))
    = teamA (state (run words es (fst (submit words data_word now w))))
  ∧ teamB (state (fst (submit words data_word' now'
                         (run words es (fst (submit words data_word now w))))))
    = teamB (state (run words es (fst (submit words data_word now w)))).
Proof.
  intros Hgate Hvalid Hsame Hes Hgate'.
  set (w1 := fst (submit words data_word now w)) in *.
  set (w2 := run words es w1) in *.
  assert (lower (strip data_word') ∈ used_words (state w2)) as Hused.
  { apply (run_used_words_mono es w1 Hes). unfold w1.
    rewrite submit_used_words, Hgate, Hvalid, Hsame. set_solver. }
  assert (5 ≤ String.length (lower (strip data_word')))%nat as Hlen.
  { rewrite Hsame. rewrite (submit_standard words data_word now w Hgate) in Hvalid.
    cbn [snd valid] in Hvalid. by apply bool_decide_eq_true in Hvalid as (? & _). }
  rewrite (submit_standard words data_word' now' w2 Hgate').
  cbn [fst snd]. rewrite emit_state_state.
  rewrite bool_decide_eq_false_2 by (intros (_ & ? & _); done).
  rewrite (proj2 (Nat.ltb_ge _ _) Hlen).
  by rewrite (bool_decide_eq_true_2 _ Hused).
Qed.

Lemma on_trigger_round_id_exact now w :
  round_id (state (on_trigger now w))
  = round_id (state w) + (if bumps_round_id (Trigger now) w then 1 else 0).
Proof.
  unfold on_trigger, bumps_round_id.
  case_bool_decide; cbn [negb andb]; [lia |].
  rewrite emit_state_state. cbn [set_last_trigger_at phase].
  destruct (phase (state w)); simpl; lia.
Qed.

(** X7.  The round token moves by exactly one, and only on a
    [start_game] that gets past its body and on a trigger outside the cooldown that finds the session in
    [idle] or [bonus_intro]; no other event writes it. *)
Theorem round_id_changes e w :
  round_id (state (step words e w))
  = round_id (state w) + (if bumps_round_id e w then 1 else 0).
Proof.
  destruct e as [body | | | | | | | | |]; cbn [step bumps_round_id].
  - unfold start_game.
    destruct body; cbn [fst]; rewrite ?emit_state_state; simpl; lia.
  - unfold init_bonus. cbn [fst]. rewrite emit_state_state.
    case_bool_decide; simpl; lia.
  - unfold reset_game. cbn [fst]. rewrite emit_state_state. simpl. lia.
  - rewrite (proj2 (submit_frame _ _ _ _)). lia.
  - apply on_trigger_round_id_exact.
  - unfold on_trigger_snapshot. rewrite emit_state_state.
    repeat case_bool_decide; simpl; lia.
  - unfold on_scan_timeout. rewrite emit_state_state. case_match; simpl; lia.
  - unfold on_scan_complete. lia.
  - unfold on_connect. rewrite emit_state_state. lia.
  - destruct (tasks w !! i) as [t|] eqn:Ht.
    + rewrite (fire_state _ _ _ _ Ht).
      rewrite (proj2 (proj2 (proj2 (run_task_frame _ _ _)))). lia.
    + rewrite fire_none by done. lia.
Qed.

Lemma step_scores_nonneg e w :
  0 <= score (teamA (state w)) ∧ 0 <= score (teamB (state w)) →
  0 <= score (teamA (state (step words e w)))
  ∧ 0 <= score (teamB (state (step words e w))).
Proof.
  intros [HA HB].
  destruct (zeroes_scores e) eqn:He.
  - destruct e as [body | | | | | | | | |]; try discriminate He; cbn [step].
    + unfold start_game.
      destruct body; cbn [fst]; rewrite ?emit_state_state; done.
    + unfold reset_game. cbn [fst]. by rewrite emit_state_state.
  - destruct (step_scores_le words e w He) as [HA' HB']. lia.
Qed.

(** X8.  In every world reached from the initial one, by any events in
    any order and under any dictionary, both scores are non-negative. *)
Theorem scores_never_negative es :
  0 <= score (teamA (state (run words es initial_world)))
  ∧ 0 <= score (teamB (state (run words es initial_world))).
Proof.
  assert (∀ w, 0 <= score (teamA (state w)) ∧ 0 <= score (teamB (state w)) →
               0 <= score (teamA (state (run words es w)))
               ∧ 0 <= score (teamB (state (run words es w)))) as Hrun.
  { induction es as [| e es IH]; intros w Hw; [done |].
    rewrite run_cons. by apply IH, step_scores_nonneg. }
  by apply Hrun.
Qed.
End runs.

(** ** What the observers see *)

Section observers.
Context (words : gset string).
Implicit Types (w : world) (e : event) (es : list event) (now : time).

Lemma last_game_state_app (ms ms' : list message) :
  last_game_state (ms ++ ms')
  = match last_game_state ms' with
    | Some sn => Some sn
    | None => last_game_state ms
    end.
Proof.
  induction ms as [| m ms IH]; simpl.
  - by destruct (last_game_state ms').
  - rewrite IH. by destruct (last_game_state ms').
Qed.

Lemma last_game_state_push (ms : list message) (s : session) :
  last_game_state (ms ++ GameState (external_snapshot s) :: admin_secrets s)
  = Some (external_snapshot s).
Proof.
  rewrite last_game_state_app. unfold admin_secrets.
  by destruct (PAIRINGS !! _).
Qed.

(** What the observers hold is not touched by a write to [state], by the
    start of a task or by the capture command. *)
Lemma observers_hold_set_state (s0 s : session) w :
  observers_hold s0 w → observers_hold s0 (set_state s w).
Proof. done. Qed.

Lemma observers_hold_task (s0 : session) (t : task) w :
  observers_hold s0 w → observers_hold s0 (start_background_task t w).
Proof. done. Qed.

Lemma observers_hold_command (s0 : session) w :
  observers_hold s0 w → observers_hold s0 (emit SnapshotCmd w).
Proof.
  intros [Hout Hlast]. split; [| done].
  cbn [emit outbox]. by rewrite last_game_state_app.
Qed.

(** An unforced publication brings the observers up to date: either the
    session is the one they hold, or the new snapshot is pushed. *)
Lemma emit_state_syncs w (s0 : session) :
  observers_hold s0 w → in_sync (emit_state false w).
Proof.
  intros [Hout Hlast]. unfold in_sync, observers_hold, emit_state.
  rewrite Hlast. simpl.
  rewrite snapshot_eqb_copy by (split; eexists; reflexivity).
  case_bool_decide as Heq; simpl.
  - by rewrite Hout, Hlast, Heq.
  - split; [apply last_game_state_push | done].
Qed.

Lemma emit_state_forced_syncs w : in_sync (emit_state true w).
Proof. split; [apply last_game_state_push | done]. Qed.

Create HintDb sync.

#[local] Hint Resolve observers_hold_set_state observers_hold_task
  observers_hold_command : sync.

Lemma run_task_in_sync (t : task) now w :
  in_sync w → in_sync (fst (run_task t now w)).
Proof.
  intros Hsync.
  destruct t; cbn [run_task];
    unfold do_countdown, do_bonus_round, scan_watchdog,
      clear_result_after_delay, transition_to_game_over;
    repeat case_match; cbn [fst];
    first [ exact Hsync
          | apply (emit_state_syncs _ (state w)); auto with sync ].
Qed.

Lemma on_trigger_in_sync now w : in_sync w → in_sync (on_trigger now w).
Proof.
  intros Hsync. unfold on_trigger. case_bool_decide; [done |].
  cbn [set_last_trigger_at phase].
  destruct (phase (state w));
    apply (emit_state_syncs _ (state w)); auto with sync.
Qed.

Lemma submit_in_sync (data_word : string) now w :
  in_sync w → in_sync (fst (submit words data_word now w)).
Proof.
  intros Hsync.
  destruct (bonus_round_phase (phase (state w))) eqn:Hgate.
  - destruct (bonus_submitted (state w)) eqn:Hflag.
    { by rewrite (submit_already_submitted words data_word now w Hgate Hflag). }
    rewrite (submit_bonus words data_word now w Hgate Hflag).
    apply (emit_state_syncs _ (state w)); auto with sync.
  - rewrite (submit_standard words data_word now w Hgate).
    apply (emit_state_syncs _ (state w)); auto with sync.
Qed.

Lemma step_in_sync e w :
  fails e = false → in_sync w → in_sync (step words e w).
Proof.
  intros He Hsync. destruct e as [body | | | | | | | | |]; cbn [step].
  - destruct body; [| done]. apply emit_state_forced_syncs.
  - apply (emit_state_syncs _ (state w)); auto with sync.
  - apply (emit_state_syncs _ (state w)); auto with sync.
  - by apply submit_in_sync.
  - by apply on_trigger_in_sync.
  - unfold on_trigger_snapshot.
    apply (emit_state_syncs _ (state w));
      repeat case_bool_decide; auto with sync.
  - apply (emit_state_syncs _ (state w)); auto with sync.
  - done.
  - apply emit_state_forced_syncs.
  - destruct (tasks w !! i) as [t|] eqn:Ht; [| by rewrite fire_none].
    pose proof (run_task_in_sync t now w Hsync) as Hsync'.
    unfold fire. rewrite Ht. by destruct (run_task t now w).
Qed.

(** X9.  No change of the session escapes the observers.  Once the last
    [game_state] message pushed carries every field of the session at its
    current value, as it does after any connection, it does so again
    after every event: each handler and each timer either pushes the
    session it leaves or leaves the session it found.  The one exception
    is a [start_game] that fails on its body, which has written
    [pair_index] by then and publishes nothing; the runs considered hold
    none. *)
Theorem observers_stay_in_sync es w :
  Forall (λ e, fails e = false) es →
  in_sync w → in_sync (run words es w).
Proof.
  intros Hes. revert w.
  induction Hes as [| e es He _ IH]; intros w Hsync; [done |].
  rewrite run_cons. by apply IH, step_in_sync.
Qed.

Lemma admin_secrets_found (s : session) :
  ∃ curr, curr ∈ PAIRINGS ∧ admin_secrets s = [AdminSecrets (fst curr) (snd curr)].
Proof.
  unfold admin_secrets. cbn [PAIRINGS length].
  pose proof (Z.mod_pos_bound (pair_index s) (Z.of_nat 2) eq_refl) as Hbound.
  destruct (Z.to_nat (pair_index s `mod` Z.of_nat 2)) as [| [| n]] eqn:Hn.
  - eexists. split; [| done]. by repeat constructor.
  - eexists. split; [| done]. by repeat constructor.
  - lia.
Qed.

Lemma emit_state_outbox (force : bool) w :
  outbox (emit_state force w) = outbox w
  ∨ ∃ curr, curr ∈ PAIRINGS
            ∧ outbox (emit_state force w)
              = outbox w ++ [GameState (external_snapshot (state w));
                             AdminSecrets (fst curr) (snd curr)].
Proof.
  unfold emit_state. case_match; [by left | right].
  destruct (admin_secrets_found (state w)) as (curr & Hin & Hsec).
  exists curr. split; [done |]. cbn [outbox]. by rewrite Hsec.
Qed.

(** X10.  A publication is never partial: [emit_state] either pushes
    nothing, or pushes the value snapshot of the session followed by one
    pairing of [PAIRINGS].  The lookup of the pairing cannot fail, for
    any [pair_index], negative ones included, so the [except] branch is
    never taken on its account. *)
Theorem emit_state_pushes_all_or_nothing (force : bool) w :
  outbox (emit_state force w) = outbox w
  ∨ ∃ curr, curr ∈ PAIRINGS
            ∧ outbox (emit_state force w)
              = outbox w ++ [GameState (external_snapshot (state w));
                             AdminSecrets (fst curr) (snd curr)].
Proof. apply emit_state_outbox. Qed.

Lemma pair_index_parity (p : Z) :
  (p `mod` 2 = 0 ∧ (p + 1) `mod` 2 = 1 ∧ ((p + 1) `mod` 2 + 1) `mod` 2 = 0)
  ∨ (p `mod` 2 = 1 ∧ (p + 1) `mod` 2 = 0 ∧ ((p + 1) `mod` 2 + 1) `mod` 2 = 1).
Proof.
  pose proof (Z.mod_pos_bound p 2 eq_refl) as Hbound.
  rewrite (Z.add_mod p 1 2) by done.
  destruct (decide (p `mod` 2 = 0)) as [H0 | H0].
  - left. by rewrite H0.
  - right. assert (p `mod` 2 = 1) as H1 by lia. by rewrite H1.
Qed.

(** X11.  [start_game] moves to the other pairing, whatever [pair_index]
    and the body were, and a second [start_game] moves back: the pairing shown to the
    administrator alternates between the two of [PAIRINGS]. *)
Theorem start_game_alternates_pairings (body body' : request_body) w :
  admin_secrets (state (fst (start_game body w))) ≠ admin_secrets (state w)
  ∧ admin_secrets (state (fst (start_game body' (fst (start_game body w)))))
    = admin_secrets (state w).
Proof.
  assert (∀ (b : request_body) w0,
            pair_index (state (fst (start_game b w0)))
            = (pair_index (state w0) + 1) `mod` 2) as Hindex.
  { intros b w0. unfold start_game.
    destruct b; cbn [fst]; by rewrite ?emit_state_state. }
  unfold admin_secrets. rewrite !Hindex. cbn [PAIRINGS length].
  change (Z.of_nat 2) with 2.
  destruct (pair_index_parity (pair_index (state w)))
    as [(H0 & H1 & H2) | (H0 & H1 & H2)].
  - rewrite (Z.mod_small _ 2) by lia. rewrite (Z.mod_small (_ `mod` 2) 2) by lia.
    rewrite H2, H1, H0. by split.
  - rewrite (Z.mod_small _ 2) by lia. rewrite (Z.mod_small (_ `mod` 2) 2) by lia.
    rewrite H2, H1, H0. by split.
Qed.
End observers.

(** ** How phases are entered *)

Section phases.
Context (words : gset string).
Implicit Types (w : world) (e : event) (now : time).

Lemma run_task_phase (t : task) now w :
  phase (state (fst (run_task t now w))) = phase (state w)
  ∨ (t = GameOverSleep12 ∧ phase (state (fst (run_task t now w))) = GameOver)
  ∨ (any_bonus_phase (phase (state w))
     = any_bonus_phase (phase (state (fst (run_task t now w))))
     ∧ phase (state (fst (run_task t now w))) ≠ GameOver).
Proof.
  destruct t; cbn [run_task];
    unfold do_countdown, do_bonus_round, scan_watchdog,
      clear_result_after_delay, transition_to_game_over;
    repeat case_match; cbn [fst]; rewrite ?emit_state_state;
    try (by left); try (by right; left); right; right;
    repeat match goal with
      | H : _ && _ = true |- _ => apply andb_true_iff in H as [? ?]
      | H : bool_decide (phase _ = _) = true |- _ =>
          apply bool_decide_eq_true in H; rewrite H
      end; done.
Qed.

Lemma on_trigger_phase now w :
  any_bonus_phase (phase (state (on_trigger now w)))
  = any_bonus_phase (phase (state w))
  ∧ (phase (state (on_trigger now w)) = GameOver → phase (state w) = GameOver).
Proof.
  unfold on_trigger. case_bool_decide; [done |].
  rewrite emit_state_state. cbn [set_last_trigger_at phase].
  destruct (phase (state w)) eqn:Hp; simpl; rewrite ?Hp; done.
Qed.

Lemma submit_phase (data_word : string) now w :
  phase (state (fst (submit words data_word now w))) = phase (state w)
  ∨ phase (state (fst (submit words data_word now w))) = Idle
  ∨ (any_bonus_phase (phase (state w)) = true
     ∧ phase (state (fst (submit words data_word now w))) = BonusIntro).
Proof.
  destruct (bonus_round_phase (phase (state w))) eqn:Hgate.
  - destruct (bonus_submitted (state w)) eqn:Hflag.
    { left. by rewrite (submit_already_submitted words data_word now w Hgate Hflag). }
    right; right. split; [by apply bonus_round_phase_any |].
    rewrite (submit_bonus words data_word now w Hgate Hflag).
    cbn [fst]. by rewrite emit_state_state.
  - right; left. rewrite (submit_standard words data_word now w Hgate).
    cbn [fst]. by rewrite emit_state_state.
Qed.

(** X12.  The bonus flow has one door: from a phase outside the five
    bonus phases, no event but [init_bonus] leads into one of them; no
    trigger, submission, scan report or timer does. *)
Theorem bonus_flow_entered_by_init_bonus e w :
  e ≠ InitBonus →
  any_bonus_phase (phase (state w)) = false →
  any_bonus_phase (phase (state (step words e w))) = false.
Proof.
  intros He Hout. destruct e as [body | | | | | | | | |]; cbn [step]; try done.
  - unfold start_game.
    destruct body; cbn [fst]; by rewrite ?emit_state_state.
  - unfold reset_game. cbn [fst]. by rewrite emit_state_state.
  - destruct (submit_phase data_word now w) as [-> | [-> | [? _]]];
      [done | done | congruence].
  - by rewrite (proj1 (on_trigger_phase now w)).
  - unfold on_trigger_snapshot. rewrite emit_state_state.
    destruct (phase (state w)) eqn:Hp; simpl; rewrite ?Hp; done.
  - unfold on_scan_timeout. rewrite emit_state_state.
    rewrite bonus_in_phase_name, Hout. done.
  - destruct (tasks w !! i) as [t|] eqn:Ht; [| by rewrite fire_none].
    rewrite (fire_state _ _ _ _ Ht).
    destruct (run_task_phase t now w) as [-> | [[_ ->] | [<- _]]]; done.
Qed.

(** X13.  [game_over] has one door as well: a session that was not in
    [game_over] is there after an event only when that event was the
    waking of a [transition_to_game_over] task. *)
Theorem game_over_entered_by_its_timer e w :
  phase (state (step words e w)) = GameOver →
  phase (state w) = GameOver
  ∨ ∃ i now, e = Fire i now ∧ tasks w !! i = Some GameOverSleep12.
Proof.
  destruct e as [body | | | | | | | | |]; cbn [step].
  - unfold start_game. destruct body; cbn [fst];
      rewrite ?emit_state_state; [done | by left].
  - unfold init_bonus. cbn [fst]. by rewrite emit_state_state.
  - unfold reset_game. cbn [fst]. by rewrite emit_state_state.
  - destruct (submit_phase data_word now w) as [-> | [-> | [_ ->]]];
      [by left | done | done].
  - intros Hover. left. by apply (on_trigger_phase now w).
  - unfold on_trigger_snapshot. rewrite emit_state_state.
    repeat case_bool_decide; simpl; [done | done | by left].
  - unfold on_scan_timeout. rewrite emit_state_state. by case_match.
  - by left.
  - unfold on_connect. rewrite emit_state_state. by left.
  - destruct (tasks w !! i) as [t|] eqn:Ht; [| rewrite fire_none by done; by left].
    rewrite (fire_state _ _ _ _ Ht).
    destruct (run_task_phase t now w) as [-> | [[-> _] | [_ Hne]]];
      [by left | right; by exists i, now | done].
Qed.

(** X14.  In [countdown], [scanning], [scan_failed], their bonus
    counterparts and [game_over], a trigger outside the cooldown finds
    nothing to do: it changes no phase, starts no task and sends no command
    to the capture client.  It is accepted all the same: it becomes the
    anchor of a new cooldown, and since that is a change of the session,
    observers that were up to date are sent the new snapshot and are up
    to date again. *)
Theorem trigger_without_effect now w :
  (2 <= now - last_trigger_at (state w))%Qc →
  phase (state w) ∈ trigger_idle_phases →
  in_sync w →
  state (on_trigger now w) = set_last_trigger_at now (state w)
  ∧ tasks (on_trigger now w) = tasks w
  ∧ outbox (on_trigger now w)
    = outbox w
      ++ GameState (external_snapshot (set_last_trigger_at now (state w)))
      :: admin_secrets (state w)
  ∧ in_sync (on_trigger now w).
Proof.
  intros Hfar Hphase Hsync.
  assert (on_trigger now w
          = emit_state false (set_state (set_last_trigger_at now (state w)) w))
    as Hbranch.
  { unfold on_trigger.
    rewrite bool_decide_eq_false_2 by by apply Qcle_not_lt.
    cbn [set_last_trigger_at phase].
    apply (bool_decide_eq_true_2 _) in Hphase.
    by destruct (phase (state w)) eqn:Hp; try discriminate Hphase. }
  split_and!.
  - by rewrite Hbranch, emit_state_state.
  - by rewrite Hbranch, emit_state_tasks.
  - rewrite Hbranch. destruct Hsync as [_ Hlast].
    unfold emit_state. cbn [set_state state _last_emitted_state negb andb].
    rewrite Hlast.
    rewrite snapshot_eqb_copy by (split; eexists; reflexivity).
    rewrite bool_decide_eq_false_2; [done |].
    intros Heq. apply (f_equal sn_last_trigger_at) in Heq. cbn in Heq.
    apply Qcle_not_lt in Hfar. apply Hfar. rewrite Heq. apply cooldown_self.
  - by apply on_trigger_in_sync.
Qed.
End phases.

(** ** Rounds from trigger to timeout *)

Section rounds.
Context (words : gset string).
Implicit Types (w : world) (now : time) (t : task) (ts rest : list task).

Lemma fire_view (i : nat) now w t :
  tasks w !! i = Some t →
  state (fire i now w) = state (fst (run_task t now w))
  ∧ tasks (fire i now w)
    = match snd (run_task t now w) with
      | Some t' => <[i := t']> (tasks (fst (run_task t now w)))
      | None => delete i (tasks (fst (run_task t now w)))
      end.
Proof. intros Ht. unfold fire. rewrite Ht. by destruct (run_task t now w). Qed.

Lemma insert_middle ts rest t (t' : task) :
  <[length ts := t']> (ts ++ t :: rest) = ts ++ t' :: rest.
Proof. rewrite insert_app_r_alt by lia. by rewrite Nat.sub_diag. Qed.

(** An accepted trigger, by the phase it finds. *)
Lemma on_trigger_from_idle now w :
  (2 <= now - last_trigger_at (state w))%Qc →
  phase (state w) = Idle →
  state (on_trigger now w)
  = set_round_id (round_id (state w) + 1)
      (set_last_result None
         (set_phase Countdown (set_last_trigger_at now (state w))))
  ∧ tasks (on_trigger now w) = tasks w ++ [CountdownStart].
Proof.
  intros Hfar Hp. unfold on_trigger.
  rewrite bool_decide_eq_false_2 by by apply Qcle_not_lt.
  rewrite emit_state_state, emit_state_tasks.
  cbn [set_last_trigger_at phase]. by rewrite Hp.
Qed.

Lemma on_trigger_from_bonus_intro now w :
  (2 <= now - last_trigger_at (state w))%Qc →
  phase (state w) = BonusIntro →
  state (on_trigger now w)
  = set_round_id (round_id (state w) + 1)
      (set_bonus_submitted false
         (set_phase BonusCountdown (set_last_trigger_at now (state w))))
  ∧ tasks (on_trigger now w) = tasks w ++ [BonusStart].
Proof.
  intros Hfar Hp. unfold on_trigger.
  rewrite bool_decide_eq_false_2 by by apply Qcle_not_lt.
  rewrite emit_state_state, emit_state_tasks.
  cbn [set_last_trigger_at phase]. by rewrite Hp.
Qed.

Lemma on_trigger_from_active now w :
  (2 <= now - last_trigger_at (state w))%Qc →
  phase (state w) = Active →
  state (on_trigger now w)
  = set_phase Scanning (set_last_trigger_at now (state w))
  ∧ tasks (on_trigger now w) = tasks w ++ [WatchdogStart]
  ∧ SnapshotCmd ∈ outbox (on_trigger now w).
Proof.
  intros Hfar Hp. unfold on_trigger.
  rewrite bool_decide_eq_false_2 by by apply Qcle_not_lt.
  rewrite emit_state_state, emit_state_tasks.
  cbn [set_last_trigger_at phase]. rewrite Hp. simpl.
  split_and!; [done | done |].
  match goal with
  | |- _ ∈ outbox (emit_state false ?w0) =>
      destruct (emit_state_outbox false w0) as [-> | (c & _ & ->)]
  end; simpl; set_solver.
Qed.

(** The critical sections of a task whose round is still the current
    one. *)
Lemma countdown_elapsed now w :
  phase (state w) = Countdown →
  run_task (CountdownSleep3 (round_id (state w))) now w
  = (emit_state false (set_state (set_phase Active (state w)) w),
     Some (CountdownSleep30 (round_id (state w)))).
Proof.
  intros Hp. cbn [run_task]. unfold do_countdown.
  by rewrite !bool_decide_eq_true_2.
Qed.

Lemma round_elapsed now w :
  phase (state w) = Active →
  run_task (CountdownSleep30 (round_id (state w))) now w
  = (emit_state false
       (start_background_task ClearResultSleep5
          (set_state
             (set_current_team (flip (current_team (state w)))
                (set_last_result (Some (timeout_result now "TIMEOUT"))
                   (set_phase Idle (state w)))) w)),
     None).
Proof.
  intros Hp. cbn [run_task]. unfold do_countdown.
  by rewrite !bool_decide_eq_true_2.
Qed.

Lemma bonus_countdown_elapsed now w :
  phase (state w) = BonusCountdown →
  run_task (BonusSleep3 (round_id (state w))) now w
  = (emit_state false (set_state (set_phase BonusActive (state w)) w),
     Some (BonusSleep60 (round_id (state w)))).
Proof.
  intros Hp. cbn [run_task]. unfold do_bonus_round.
  by rewrite !bool_decide_eq_true_2.
Qed.

Lemma bonus_round_elapsed now w :
  phase (state w) = BonusActive →
  bonus_submitted (state w) = false →
  run_task (BonusSleep60 (round_id (state w))) now w
  = (emit_state false
       (start_background_task GameOverSleep12
          (set_state
             (set_phase BonusIntro
                (set_bonus_submitted true
                   (set_last_result (Some (timeout_result now "TIME_EXPIRED"))
                      (state w)))) w)),
     None).
Proof.
  intros Hp Hflag. cbn [run_task]. unfold do_bonus_round.
  rewrite !bool_decide_eq_true_2 by done. by rewrite Hflag.
Qed.

(** X15.  A standard round that nobody answers.  From [idle], a trigger
    outside the cooldown starts the round, and when its task is the only
    thing that runs, the three waits of [do_countdown] end in a turn lost:
    the session is back in [idle] under the next round token, the result
    is a [TIMEOUT], the turn has passed to the other team, nothing else
    has changed, and one result-clearing task is left, which then wipes
    the result. *)
Theorem round_runs_out now (t1 t2 t3 t4 : time) w :
  (2 <= now - last_trigger_at (state w))%Qc →
  phase (state w) = Idle →
  state (run words
           [Trigger now; Fire (length (tasks w)) t1; Fire (length (tasks w)) t2;
            Fire (length (tasks w)) t3] w)
  = mkSession (pair_index (state w)) (teamA (state w)) (teamB (state w))
      (used_words (state w)) (flip (current_team (state w))) Idle
      (Some (timeout_result t3 "TIMEOUT")) now (winning_team (state w))
      (bonus_submitted (state w)) (round_id (state w) + 1)
  ∧ tasks (run words
             [Trigger now; Fire (length (tasks w)) t1; Fire (length (tasks w)) t2;
              Fire (length (tasks w)) t3] w)
    = tasks w ++ [ClearResultSleep5]
  ∧ last_result
      (state (run words
                [Trigger now; Fire (length (tasks w)) t1;
                 Fire (length (tasks w)) t2; Fire (length (tasks w)) t3;
                 Fire (length (tasks w)) t4] w)) = None
  ∧ tasks (run words
             [Trigger now; Fire (length (tasks w)) t1; Fire (length (tasks w)) t2;
              Fire (length (tasks w)) t3; Fire (length (tasks w)) t4] w)
    = tasks w.
Proof.
  intros Hfar Hp.
  rewrite !run_cons. cbn [step run foldl].
  destruct (on_trigger_from_idle now w Hfar Hp) as [Hs1 Ht1].
  set (w1 := on_trigger now w) in *.
  set (i := length (tasks w)).
  (* the task reads the round token *)
  destruct (fire_view i t1 w1 CountdownStart) as [Hs2 Ht2].
  { rewrite Ht1. by apply list_lookup_middle. }
  cbn [run_task do_countdown fst snd] in Hs2, Ht2.
  rewrite Ht1 in Ht2. unfold i in Ht2. rewrite insert_middle in Ht2. fold i in Ht2.
  set (w2 := fire i t1 w1) in *.
  (* three seconds later *)
  assert (phase (state w2) = Countdown) as Hp2 by (by rewrite Hs2, Hs1).
  destruct (fire_view i t2 w2 (CountdownSleep3 (round_id (state w2)))) as [Hs3 Ht3].
  { rewrite Ht2, Hs2. by apply list_lookup_middle. }
  rewrite (countdown_elapsed t2 w2 Hp2) in Hs3, Ht3. cbn [fst snd] in Hs3, Ht3.
  rewrite emit_state_state in Hs3. rewrite emit_state_tasks in Ht3.
  cbn [set_state state tasks] in Hs3, Ht3.
  rewrite Ht2 in Ht3. unfold i in Ht3. rewrite insert_middle in Ht3. fold i in Ht3.
  set (w3 := fire i t2 w2) in *.
  (* thirty seconds later *)
  assert (phase (state w3) = Active) as Hp3 by (by rewrite Hs3).
  assert (round_id (state w3) = round_id (state w2)) as Hr3 by (by rewrite Hs3).
  destruct (fire_view i t3 w3 (CountdownSleep30 (round_id (state w3)))) as [Hs4 Ht4].
  { rewrite Ht3, Hr3. by apply list_lookup_middle. }
  rewrite (round_elapsed t3 w3 Hp3) in Hs4, Ht4. cbn [fst snd] in Hs4, Ht4.
  rewrite emit_state_state in Hs4. rewrite emit_state_tasks in Ht4.
  cbn [start_background_task set_state state tasks] in Hs4, Ht4.
  rewrite Ht3, <- app_assoc in Ht4. cbn [app] in Ht4.
  unfold i in Ht4. rewrite delete_middle in Ht4. fold i in Ht4.
  set (w4 := fire i t3 w3) in *.
  (* five seconds later *)
  assert (phase (state w4) = Idle) as Hp4 by (by rewrite Hs4).
  destruct (fire_view i t4 w4 ClearResultSleep5) as [Hs5 Ht5].
  { rewrite Ht4. by apply list_lookup_middle. }
  cbn [run_task fst snd] in Hs5, Ht5.
  rewrite (clear_result_after_delay_idle w4 Hp4) in Hs5.
  unfold clear_result_after_delay in Ht5. rewrite emit_state_tasks in Ht5.
  cbn [set_state tasks] in Ht5.
  rewrite Ht4 in Ht5. unfold i in Ht5. rewrite delete_middle, app_nil_r in Ht5.
  split_and!.
  - rewrite Hs4, Hs3, Hs2, Hs1. done.
  - done.
  - by rewrite Hs5.
  - done.
Qed.

(** X16.  A bonus round that nobody answers.  From [bonus_intro], a
    trigger outside the cooldown starts the bonus round, and when its task
    is the only thing that runs, the three waits of [do_bonus_round] end
    the round: the result is a [TIME_EXPIRED], the bonus flag is up, the
    session is back in [bonus_intro] under the next round token, nothing
    else has changed, and the one task left then moves the session to
    [game_over]. *)
Theorem bonus_round_runs_out now (t1 t2 t3 t4 : time) w :
  (2 <= now - last_trigger_at (state w))%Qc →
  phase (state w) = BonusIntro →
  state (run words
           [Trigger now; Fire (length (tasks w)) t1; Fire (length (tasks w)) t2;
            Fire (length (tasks w)) t3] w)
  = mkSession (pair_index (state w)) (teamA (state w)) (teamB (state w))
      (used_words (state w)) (current_team (state w)) BonusIntro
      (Some (timeout_result t3 "TIME_EXPIRED")) now (winning_team (state w))
      true (round_id (state w) + 1)
  ∧ tasks (run words
             [Trigger now; Fire (length (tasks w)) t1; Fire (length (tasks w)) t2;
              Fire (length (tasks w)) t3] w)
    = tasks w ++ [GameOverSleep12]
  ∧ phase
      (state (run words
                [Trigger now; Fire (length (tasks w)) t1;
                 Fire (length (tasks w)) t2; Fire (length (tasks w)) t3;
                 Fire (length (tasks w)) t4] w)) = GameOver
  ∧ tasks (run words
             [Trigger now; Fire (length (tasks w)) t1; Fire (length (tasks w)) t2;
              Fire (length (tasks w)) t3; Fire (length (tasks w)) t4] w)
    = tasks w.
Proof.
  intros Hfar Hp.
  rewrite !run_cons. cbn [step run foldl].
  destruct (on_trigger_from_bonus_intro now w Hfar Hp) as [Hs1 Ht1].
  set (w1 := on_trigger now w) in *.
  set (i := length (tasks w)).
  destruct (fire_view i t1 w1 BonusStart) as [Hs2 Ht2].
  { rewrite Ht1. by apply list_lookup_middle. }
  cbn [run_task do_bonus_round fst snd] in Hs2, Ht2.
  rewrite Ht1 in Ht2. unfold i in Ht2. rewrite insert_middle in Ht2. fold i in Ht2.
  set (w2 := fire i t1 w1) in *.
  assert (phase (state w2) = BonusCountdown) as Hp2 by (by rewrite Hs2, Hs1).
  destruct (fire_view i t2 w2 (BonusSleep3 (round_id (state w2)))) as [Hs3 Ht3].
  { rewrite Ht2, Hs2. by apply list_lookup_middle. }
  rewrite (bonus_countdown_elapsed t2 w2 Hp2) in Hs3, Ht3.
  cbn [fst snd] in Hs3, Ht3.
  rewrite emit_state_state in Hs3. rewrite emit_state_tasks in Ht3.
  cbn [set_state state tasks] in Hs3, Ht3.
  rewrite Ht2 in Ht3. unfold i in Ht3. rewrite insert_middle in Ht3. fold i in Ht3.
  set (w3 := fire i t2 w2) in *.
  assert (phase (state w3) = BonusActive) as Hp3 by (by rewrite Hs3).
  assert (bonus_submitted (state w3) = false) as Hf3 by (by rewrite Hs3, Hs2, Hs1).
  assert (round_id (state w3) = round_id (state w2)) as Hr3 by (by rewrite Hs3).
  destruct (fire_view i t3 w3 (BonusSleep60 (round_id (state w3)))) as [Hs4 Ht4].
  { rewrite Ht3, Hr3. by apply list_lookup_middle. }
  rewrite (bonus_round_elapsed t3 w3 Hp3 Hf3) in Hs4, Ht4.
  cbn [fst snd] in Hs4, Ht4.
  rewrite emit_state_state in Hs4. rewrite emit_state_tasks in Ht4.
  cbn [start_background_task set_state state tasks] in Hs4, Ht4.
  rewrite Ht3, <- app_assoc in Ht4. cbn [app] in Ht4.
  unfold i in Ht4. rewrite delete_middle in Ht4. fold i in Ht4.
  set (w4 := fire i t3 w3) in *.
  destruct (fire_view i t4 w4 GameOverSleep12) as [Hs5 Ht5].
  { rewrite Ht4. by apply list_lookup_middle. }
  cbn [run_task fst snd] in Hs5, Ht5.
  rewrite transition_to_game_over_unguarded in Hs5.
  unfold transition_to_game_over in Ht5. rewrite emit_state_tasks in Ht5.
  cbn [set_state tasks] in Ht5.
  rewrite Ht4 in Ht5. unfold i in Ht5. rewrite delete_middle, app_nil_r in Ht5.
  split_and!.
  - rewrite Hs4, Hs3, Hs2, Hs1. done.
  - done.
  - by rewrite Hs5.
  - done.
Qed.

(** X17.  The bonus points go to the team that led when [init_bonus] was
    called, team A on a tie.  When [init_bonus], an accepted trigger and
    the bonus countdown are followed by a word of the dictionary of five
    characters or more, the answer is [BONUS_CLEARED] with the bonus
    points of its length, the leader's score rises by them, the other
    score stays, and the round is over. *)
Theorem bonus_round_pays_the_leader now (t1 t2 t3 : time) (data_word : string) w :
  (2 <= now - last_trigger_at (state w))%Qc →
  (5 ≤ String.length (lower (strip data_word)))%nat →
  lower (strip data_word) ∈ words →
  snd (submit words data_word t3
         (run words
            [InitBonus; Trigger now; Fire (length (tasks w)) t1;
             Fire (length (tasks w)) t2] w))
  = JsonSubmit true (bonus_pts (String.length (lower (strip data_word))))
      "BONUS_CLEARED" 200
  ∧ team_score (leader (state w))
      (state (run words
                [InitBonus; Trigger now; Fire (length (tasks w)) t1;
                 Fire (length (tasks w)) t2; Submit data_word t3] w))
    = team_score (leader (state w)) (state w)
      + bonus_pts (String.length (lower (strip data_word)))
  ∧ team_score (flip (leader (state w)))
      (state (run words
                [InitBonus; Trigger now; Fire (length (tasks w)) t1;
                 Fire (length (tasks w)) t2; Submit data_word t3] w))
    = team_score (flip (leader (state w))) (state w)
  ∧ winning_team
      (state (run words
                [InitBonus; Trigger now; Fire (length (tasks w)) t1;
                 Fire (length (tasks w)) t2; Submit data_word t3] w))
    = Some (leader (state w))
  ∧ phase
      (state (run words
                [InitBonus; Trigger now; Fire (length (tasks w)) t1;
                 Fire (length (tasks w)) t2; Submit data_word t3] w))
    = BonusIntro.
Proof.
  intros Hfar Hlen Hdict.
  rewrite !run_cons. cbn [step run foldl].
  set (i := length (tasks w)).
  set (w0 := fst (init_bonus w)).
  assert (state w0
          = set_bonus_submitted false
              (set_last_result None
                 (set_phase BonusIntro
                    (set_current_team (leader (state w))
                       (set_winning_team (Some (leader (state w))) (state w))))))
    as Hs0.
  { unfold w0, init_bonus, leader. cbn [fst]. rewrite emit_state_state.
    by case_bool_decide. }
  assert (tasks w0 = tasks w) as Ht0.
  { unfold w0, init_bonus. cbn [fst]. by rewrite emit_state_tasks. }
  assert (2 <= now - last_trigger_at (state w0))%Qc as Hfar0 by (by rewrite Hs0).
  assert (phase (state w0) = BonusIntro) as Hp0 by (by rewrite Hs0).
  destruct (on_trigger_from_bonus_intro now w0 Hfar0 Hp0) as [Hs1 Ht1].
  rewrite Ht0 in Ht1.
  set (w1 := on_trigger now w0) in *.
  destruct (fire_view i t1 w1 BonusStart) as [Hs2 Ht2].
  { rewrite Ht1. by apply list_lookup_middle. }
  cbn [run_task do_bonus_round fst snd] in Hs2, Ht2.
  rewrite Ht1 in Ht2. unfold i in Ht2. rewrite insert_middle in Ht2. fold i in Ht2.
  set (w2 := fire i t1 w1) in *.
  assert (phase (state w2) = BonusCountdown) as Hp2 by (by rewrite Hs2, Hs1).
  destruct (fire_view i t2 w2 (BonusSleep3 (round_id (state w2)))) as [Hs3 _].
  { rewrite Ht2, Hs2. by apply list_lookup_middle. }
  rewrite (bonus_countdown_elapsed t2 w2 Hp2) in Hs3. cbn [fst] in Hs3.
  rewrite emit_state_state in Hs3. cbn [set_state state] in Hs3.
  set (w3 := fire i t2 w2) in *.
  assert (bonus_round_phase (phase (state w3)) = true) as Hgate by (by rewrite Hs3).
  assert (bonus_submitted (state w3) = false) as Hflag
    by (by rewrite Hs3, Hs2, Hs1).
  rewrite (submit_bonus words data_word t3 w3 Hgate Hflag).
  cbn [fst snd]. rewrite emit_state_state.
  rewrite bool_decide_eq_true_2 by done.
  rewrite (proj2 (Nat.ltb_ge _ _) Hlen), (bool_decide_eq_true_2 _ Hdict).
  cbn [start_background_task set_state state].
  rewrite Hs3, Hs2, Hs1, Hs0.
  split_and!; try done; by destruct (leader (state w)).
Qed.

Lemma watchdog_elapsed now w :
  phase (state w) = Scanning →
  run_task (WatchdogSleep11 (round_id (state w))) now w
  = (emit_state false (set_state (set_phase ScanFailed (state w)) w), None).
Proof.
  intros Hp. cbn [run_task]. unfold scan_watchdog.
  rewrite (bool_decide_eq_true_2 (round_id _ = _)) by done.
  by rewrite (bool_decide_eq_true_2 _ Hp).
Qed.

Lemma watchdog_answered (r : Z) now w :
  phase (state w) ≠ Scanning →
  phase (state w) ≠ BonusScanning →
  run_task (WatchdogSleep11 r) now w = (w, None).
Proof.
  intros Hp Hp'. cbn [run_task]. unfold scan_watchdog.
  rewrite (bool_decide_eq_false_2 _ Hp), (bool_decide_eq_false_2 _ Hp').
  by case_bool_decide.
Qed.

(** X18.  A scan and its watchdog.  In [active], a trigger outside the
    cooldown sends the capture command and moves to [scanning].  If
    nothing else happens, the watchdog turns that into [scan_failed].  If
    a word is submitted before the watchdog wakes, the watchdog wakes to a
    phase that is no longer a scanning one and changes nothing. *)
Theorem scan_and_watchdog now (t1 t2 t3 : time) (data_word : string) w :
  (2 <= now - last_trigger_at (state w))%Qc →
  phase (state w) = Active →
  phase (state (on_trigger now w)) = Scanning
  ∧ SnapshotCmd ∈ outbox (on_trigger now w)
  ∧ state (run words
             [Trigger now; Fire (length (tasks w)) t1; Fire (length (tasks w)) t2]
             w)
    = set_phase ScanFailed (set_last_trigger_at now (state w))
  ∧ state (run words
             [Trigger now; Fire (length (tasks w)) t1; Submit data_word t2;
              Fire (length (tasks w)) t3] w)
    = state (run words
               [Trigger now; Fire (length (tasks w)) t1; Submit data_word t2] w).
Proof.
  intros Hfar Hp.
  rewrite !run_cons. cbn [step run foldl].
  destruct (on_trigger_from_active now w Hfar Hp) as (Hs1 & Ht1 & Hcmd).
  set (w1 := on_trigger now w) in *.
  set (i := length (tasks w)).
  destruct (fire_view i t1 w1 WatchdogStart) as [Hs2 Ht2].
  { rewrite Ht1. by apply list_lookup_middle. }
  cbn [run_task scan_watchdog fst snd] in Hs2, Ht2.
  rewrite Ht1 in Ht2. unfold i in Ht2. rewrite insert_middle in Ht2. fold i in Ht2.
  set (w2 := fire i t1 w1) in *.
  assert (phase (state w2) = Scanning) as Hp2 by (by rewrite Hs2, Hs1).
  split_and!; [by rewrite Hs1 | done | |].
  - destruct (fire_view i t2 w2 (WatchdogSleep11 (round_id (state w2)))) as [Hs3 _].
    { rewrite Ht2, Hs2. by apply list_lookup_middle. }
    rewrite (watchdog_elapsed t2 w2 Hp2) in Hs3. cbn [fst] in Hs3.
    rewrite emit_state_state in Hs3. by rewrite Hs3, Hs2, Hs1.
  - assert (bonus_round_phase (phase (state w2)) = false) as Hgate
      by (by rewrite Hp2).
    set (w3 := fst (submit words data_word t2 w2)).
    assert (phase (state w3) = Idle) as Hp3.
    { unfold w3. rewrite (submit_standard words data_word t2 w2 Hgate).
      cbn [fst]. by rewrite emit_state_state. }
    assert (tasks w3 = tasks w ++ [WatchdogSleep11 (round_id (state w1));
                                   ClearResultSleep5]) as Ht3.
    { unfold w3. rewrite (submit_standard words data_word t2 w2 Hgate).
      cbn [fst]. rewrite emit_state_tasks. cbn [start_background_task tasks set_state].
      by rewrite Ht2, <- app_assoc. }
    destruct (fire_view i t3 w3 (WatchdogSleep11 (round_id (state w1)))) as [Hs4 _].
    { rewrite Ht3. by apply list_lookup_middle. }
    rewrite watchdog_answered in Hs4 by (by rewrite Hp3). done.
Qed.
End rounds.

(** ** The [/ocr] handler *)

Section ocr_handler.
Context (upper : string → string) (vision : string → string + string).
Implicit Types (s image data prefix rest text : string) (c : ascii).

Lemma str_in_comma_cons c s :
  str_in "," (String c s) = false ↔ c ≠ ","%char ∧ str_in "," s = false.
Proof.
  cbn [str_in Strings.String.prefix].
  destruct (ascii_dec "," c) as [<- | Hne].
  - split; [by destruct s | by intros [? _]].
  - cbn [orb]. split; [intros Hs; split; [congruence | done] | by intros [_ ?]].
Qed.

Lemma str_in_comma_here s : str_in "," (String "," s) = true.
Proof.
  destruct (str_in "," (String "," s)) eqn:Hc; [done |].
  by apply str_in_comma_cons in Hc as [? _].
Qed.

Lemma str_in_comma_later c s : str_in "," s = true → str_in "," (String c s) = true.
Proof.
  intros Hs. destruct (str_in "," (String c s)) eqn:Hc; [done |].
  apply str_in_comma_cons in Hc as [_ Hc]. congruence.
Qed.

Lemma split_no_comma s : str_in "," s = false → split "," s = [s].
Proof.
  induction s as [|c s IH]; [done |].
  intros [Hc Hs]%str_in_comma_cons.
  cbn [split]. rewrite bool_decide_eq_false_2 by done. by rewrite (IH Hs).
Qed.

Lemma split_at_comma prefix s :
  str_in "," prefix = false →
  split "," (prefix +:+ String "," s) = prefix :: split "," s.
Proof.
  induction prefix as [|c prefix IH].
  - by intros _.
  - intros [Hc Hs]%str_in_comma_cons.
    change (String c prefix +:+ String "," s)
      with (String c (prefix +:+ String "," s)).
    cbn [split]. rewrite bool_decide_eq_false_2 by done.
    by rewrite (IH Hs).
Qed.

Lemma str_in_comma_app prefix s : str_in "," (prefix +:+ String "," s) = true.
Proof.
  induction prefix as [|c prefix IH].
  - apply str_in_comma_here.
  - change (String c prefix +:+ String "," s)
      with (String c (prefix +:+ String "," s)).
    by apply str_in_comma_later.
Qed.

Lemma split_length s : (1 ≤ length (split "," s))%nat.
Proof.
  induction s as [|c s IH]; cbn [split]; [simpl; lia |].
  case_bool_decide; [simpl; lia |].
  destruct (split "," s); simpl in *; lia.
Qed.

Lemma split_comma_second s :
  str_in "," s = true → is_Some (split "," s !! 1%nat).
Proof.
  induction s as [|c s IH]; [done |].
  intros Hin. cbn [split].
  case_bool_decide as Hc.
  - pose proof (split_length s).
    destruct (split "," s); simpl in *; [lia | by eexists].
  - assert (str_in "," s = true) as Hs.
    { destruct (str_in "," s) eqn:Hs; [done |].
      assert (str_in "," (String c s) = false) by (by apply str_in_comma_cons).
      congruence. }
    destruct (IH Hs) as [x Hx].
    destruct (split "," s) as [| seg rest]; [done |]. by exists x.
Qed.

(** X19.  The image data handed to the vision service is never out of
    range: the lookup [split(",")[1]] runs only on a string with a comma
    and always finds its element.  A string without comma is passed
    whole; a string [prefix,data] loses its prefix; and of
    [prefix,data,rest] only [data] is kept. *)
Theorem image_payload_found image prefix data rest :
  str_in "," prefix = false →
  str_in "," data = false →
  is_Some (image_payload image)
  ∧ image_payload data = Some data
  ∧ image_payload (prefix +:+ String "," data) = Some data
  ∧ image_payload (prefix +:+ String "," (data +:+ String "," rest)) = Some data.
Proof.
  intros Hp Hd. split_and!.
  - unfold image_payload. destruct (str_in "," image) eqn:Hc; [| by eexists].
    by apply split_comma_second.
  - unfold image_payload. by rewrite Hd.
  - unfold image_payload. rewrite str_in_comma_app.
    rewrite split_at_comma by done. simpl. by rewrite split_no_comma.
  - unfold image_payload. rewrite str_in_comma_app.
    rewrite !split_at_comma by done. done.
Qed.

(** X20.  The answer [No image data] with status 400 is given exactly
    when the image data is empty: the key is missing, the string is
    empty, or nothing stands between the first comma and the next.  The
    vision service plays no part in it. *)
Theorem ocr_no_image_data image :
  (ocr upper vision image = OcrError "No image data" 400
   ↔ image_payload image = Some "")
  ∧ ocr upper vision "" = OcrError "No image data" 400.
Proof.
  split; [| done]. unfold ocr.
  destruct (image_payload image) as [data |]; [| done].
  case_bool_decide as Hd.
  - by rewrite Hd.
  - split; [| by intros [= ?]]. by destruct (vision data).
Qed.

Lemma keep_valid_letters_valid s :
  Forall (λ c, c ∈ valid_letters) (Strings.String.list_ascii_of_string (keep_valid_letters s)).
Proof.
  induction s as [|c s IH]; cbn [keep_valid_letters]; [constructor |].
  case_bool_decide; [by constructor | done].
Qed.

Lemma keep_valid_letters_idemp s :
  keep_valid_letters (keep_valid_letters s) = keep_valid_letters s.
Proof.
  induction s as [|c s IH]; cbn [keep_valid_letters]; [done |].
  case_bool_decide as Hc; [| done].
  cbn [keep_valid_letters]. by rewrite (bool_decide_eq_true_2 _ Hc), IH.
Qed.

Lemma keep_valid_letters_length s :
  (String.length (keep_valid_letters s) ≤ String.length s)%nat.
Proof.
  induction s as [|c s IH]; cbn [keep_valid_letters]; [done |].
  case_bool_decide; simpl; lia.
Qed.

(** X21.  Whatever the vision service answers, the letters returned are
    letters of the fixed alphabet ACEFILMOPRSTVY only, cleaning them
    again changes nothing, and they are no more than the raw text
    holds. *)
Theorem ocr_letters_in_alphabet image (letters raw : string) :
  ocr upper vision image = OcrLetters letters raw →
  Forall (λ c, c ∈ valid_letters) (Strings.String.list_ascii_of_string letters)
  ∧ keep_valid_letters letters = letters
  ∧ letters = keep_valid_letters raw
  ∧ (String.length letters ≤ String.length raw)%nat.
Proof.
  unfold ocr.
  destruct (image_payload image) as [data |]; [| done].
  case_bool_decide; [done |].
  destruct (vision data) as [text | err]; [| done].
  intros [= <- <-].
  split_and!; [apply keep_valid_letters_valid | apply keep_valid_letters_idemp
              | done | apply keep_valid_letters_length].
Qed.

(** X22.  The prompt asks the vision service to answer NONE when it sees
    no letters.  That answer is cleaned like any other text: its O and E
    are letters of the alphabet, so the handler reports the letters OE. *)
Theorem ocr_none_is_cleaned image data text :
  image_payload image = Some data →
  data ≠ "" →
  vision data = inl text →
  upper (strip text) = "NONE" →
  ocr upper vision image = OcrLetters "OE" "NONE".
Proof.
  intros Hpay Hdata Hvis Hup. unfold ocr.
  rewrite Hpay, (bool_decide_eq_false_2 _ Hdata), Hvis. cbn zeta.
  by rewrite Hup.
Qed.
End ocr_handler.

(** ** Instances of the properties above *)

(** Decide a closed decidable proposition by evaluation. *)
Ltac by_evaluation := apply (bool_decide_unpack _); vm_compute; exact I.

(** The first line of the demo file, submitted to the fresh session. *)
Lemma dictionary_line_accepted_witness :
  apple_line ∈ demo_lines
  ∧ (5 ≤ String.length (strip apple_line))%nat
  ∧ bonus_round_phase (phase (state initial_world)) = false
  ∧ (lower (strip apple_line) ∉ used_words (state initial_world))
  ∧ snd (submit (load_words (Some demo_lines)) apple_line (sec 1) initial_world)
    = JsonSubmit true
        (default 0 (POINTS_BY_LEN !! String.length (strip apple_line))) "ok" 200.
Proof.
  assert (apple_line ∈ demo_lines) as Hin by by_evaluation.
  assert (5 ≤ String.length (strip apple_line))%nat as Hlen by by_evaluation.
  assert (lower (strip apple_line) ∉ used_words (state initial_world)) as Hfresh
    by by_evaluation.
  split_and!; [exact Hin | exact Hlen | reflexivity | exact Hfresh |].
  exact (dictionary_line_accepted demo_lines apple_line (sec 1) initial_world
           Hin Hlen eq_refl Hfresh).
Defined.

(** "Apple" scored in the fresh session, a trigger, then " apple ". *)
Lemma duplicate_until_start_game_witness :
  bonus_round_phase (phase (state initial_world)) = false
  ∧ valid (snd (submit demo_words "Apple" (sec 1) initial_world)) = true
  ∧ lower (strip " apple ") = lower (strip "Apple")
  ∧ Forall (λ e, is_start_game e = false) [Trigger (sec 10)]
  ∧ snd (submit demo_words " apple " (sec 11)
           (run demo_words [Trigger (sec 10)]
              (fst (submit demo_words "Apple" (sec 1) initial_world))))
    = JsonSubmit false 0 "duplicate" 200.
Proof.
  assert (Forall (λ e, is_start_game e = false) [Trigger (sec 10)]) as Hes
    by repeat constructor.
  split_and!; [reflexivity | reflexivity | reflexivity | exact Hes |].
  exact (proj1 (duplicate_until_start_game demo_words "Apple" " apple "
                  (sec 1) (sec 11) [Trigger (sec 10)] initial_world
                  eq_refl eq_refl eq_refl Hes eq_refl)).
Defined.

(** After a connection, a run of a submission, [init_bonus], a trigger and
    a timer. *)
Lemma observers_stay_in_sync_witness :
  Forall (λ e, fails e = false) quiet_run
  ∧ in_sync (on_connect initial_world)
  ∧ in_sync (run demo_words quiet_run (on_connect initial_world)).
Proof.
  assert (Forall (λ e, fails e = false) quiet_run) as Hes by repeat constructor.
  assert (in_sync (on_connect initial_world)) as Hsync by (split; reflexivity).
  split_and!; [exact Hes | exact Hsync |].
  exact (observers_stay_in_sync demo_words quiet_run (on_connect initial_world)
           Hes Hsync).
Defined.

(** A trigger in the fresh session. *)
Lemma bonus_flow_entered_by_init_bonus_witness :
  Trigger (sec 10) ≠ InitBonus
  ∧ any_bonus_phase (phase (state initial_world)) = false
  ∧ any_bonus_phase
      (phase (state (step demo_words (Trigger (sec 10)) initial_world))) = false.
Proof.
  assert (Trigger (sec 10) ≠ InitBonus) as Hne by discriminate.
  split_and!; [exact Hne | reflexivity |].
  exact (bonus_flow_entered_by_init_bonus demo_words (Trigger (sec 10))
           initial_world Hne eq_refl).
Defined.

(** The game-over task of the bonus round, waking in the new game. *)
Lemma game_over_entered_by_its_timer_witness :
  phase (state (step demo_words (Fire 1 (sec 32)) restarted_world)) = GameOver
  ∧ (phase (state restarted_world) = GameOver
     ∨ ∃ i now, Fire 1 (sec 32) = Fire i now
                ∧ tasks restarted_world !! i = Some GameOverSleep12).
Proof.
  assert (phase (state (step demo_words (Fire 1 (sec 32)) restarted_world))
          = GameOver) as Hover by reflexivity.
  split; [exact Hover |].
  exact (game_over_entered_by_its_timer demo_words (Fire 1 (sec 32))
           restarted_world Hover).
Defined.

(** A trigger during the countdown. *)
Lemma trigger_without_effect_witness :
  (2 <= sec 14 - last_trigger_at (state countdown_world))%Qc
  ∧ phase (state countdown_world) ∈ trigger_idle_phases
  ∧ in_sync countdown_world
  ∧ outbox (on_trigger (sec 14) countdown_world)
    = outbox countdown_world
      ++ GameState
           (external_snapshot (set_last_trigger_at (sec 14) (state countdown_world)))
      :: admin_secrets (state countdown_world).
Proof.
  assert (2 <= sec 14 - last_trigger_at (state countdown_world))%Qc as Hfar
    by by_evaluation.
  assert (phase (state countdown_world) ∈ trigger_idle_phases) as Hphase
    by by_evaluation.
  assert (in_sync countdown_world) as Hsync by (split; reflexivity).
  split_and!; [exact Hfar | exact Hphase | exact Hsync |].
  exact (proj1 (proj2 (proj2
    (trigger_without_effect (sec 14) countdown_world Hfar Hphase Hsync)))).
Defined.

(** The first round of a game, unanswered. *)
Lemma round_runs_out_witness :
  (2 <= sec 12 - last_trigger_at (state idle_world))%Qc
  ∧ phase (state idle_world) = Idle
  ∧ tasks (run demo_words
             [Trigger (sec 12); Fire (length (tasks idle_world)) (sec 12);
              Fire (length (tasks idle_world)) (sec 15);
              Fire (length (tasks idle_world)) (sec 45)] idle_world)
    = tasks idle_world ++ [ClearResultSleep5].
Proof.
  assert (2 <= sec 12 - last_trigger_at (state idle_world))%Qc as Hfar
    by by_evaluation.
  split_and!; [exact Hfar | reflexivity |].
  exact (proj1 (proj2 (round_runs_out demo_words (sec 12) (sec 12) (sec 15)
                         (sec 45) (sec 50) idle_world Hfar eq_refl))).
Defined.

(** The bonus round, unanswered. *)
Lemma bonus_round_runs_out_witness :
  (2 <= sec 10 - last_trigger_at (state after_init_bonus))%Qc
  ∧ phase (state after_init_bonus) = BonusIntro
  ∧ tasks (run demo_words
             [Trigger (sec 10); Fire (length (tasks after_init_bonus)) (sec 10);
              Fire (length (tasks after_init_bonus)) (sec 13);
              Fire (length (tasks after_init_bonus)) (sec 73)] after_init_bonus)
    = tasks after_init_bonus ++ [GameOverSleep12].
Proof.
  assert (2 <= sec 10 - last_trigger_at (state after_init_bonus))%Qc as Hfar
    by by_evaluation.
  split_and!; [exact Hfar | reflexivity |].
  exact (proj1 (proj2 (bonus_round_runs_out demo_words (sec 10) (sec 10) (sec 13)
                         (sec 73) (sec 85) after_init_bonus Hfar eq_refl))).
Defined.

(** The scores are tied at three points, so team A leads and wins the
    bonus with "grape". *)
Lemma bonus_round_pays_the_leader_witness :
  (2 <= sec 20 - last_trigger_at (state second_word_scored))%Qc
  ∧ (5 ≤ String.length (lower (strip "grape")))%nat
  ∧ lower (strip "grape") ∈ demo_words
  ∧ snd (submit demo_words "grape" (sec 30)
           (run demo_words
              [InitBonus; Trigger (sec 20);
               Fire (length (tasks second_word_scored)) (sec 20);
               Fire (length (tasks second_word_scored)) (sec 23)]
              second_word_scored))
    = JsonSubmit true (bonus_pts (String.length (lower (strip "grape"))))
        "BONUS_CLEARED" 200.
Proof.
  assert (2 <= sec 20 - last_trigger_at (state second_word_scored))%Qc as Hfar
    by by_evaluation.
  assert (5 ≤ String.length (lower (strip "grape")))%nat as Hlen by by_evaluation.
  assert (lower (strip "grape") ∈ demo_words) as Hdict by by_evaluation.
  split_and!; [exact Hfar | exact Hlen | exact Hdict |].
  exact (proj1 (bonus_round_pays_the_leader demo_words (sec 20) (sec 20) (sec 23)
                  (sec 30) "grape" second_word_scored Hfar Hlen Hdict)).
Defined.

(** A scan in the first round. *)
Lemma scan_and_watchdog_witness :
  (2 <= sec 20 - last_trigger_at (state active_world))%Qc
  ∧ phase (state active_world) = Active
  ∧ phase (state (on_trigger (sec 20) active_world)) = Scanning
  ∧ SnapshotCmd ∈ outbox (on_trigger (sec 20) active_world).
Proof.
  assert (2 <= sec 20 - last_trigger_at (state active_world))%Qc as Hfar
    by by_evaluation.
  split_and!; [exact Hfar | reflexivity | |].
  - exact (proj1 (scan_and_watchdog demo_words (sec 20) (sec 20) (sec 31)
                    (sec 40) "apple" active_world Hfar eq_refl)).
  - exact (proj1 (proj2 (scan_and_watchdog demo_words (sec 20) (sec 20) (sec 31)
                           (sec 40) "apple" active_world Hfar eq_refl))).
Defined.

(** A data URL. *)
Lemma image_payload_found_witness :
  str_in "," "data:image/jpeg;base64" = false
  ∧ str_in "," "QUJD" = false
  ∧ image_payload "data:image/jpeg;base64,QUJD" = Some "QUJD".
Proof.
  split_and!; [reflexivity | reflexivity |].
  exact (proj1 (proj2 (proj2
    (image_payload_found "" "data:image/jpeg;base64" "QUJD" "" eq_refl eq_refl)))).
Defined.

(** The service reads "cat". *)
Lemma ocr_letters_in_alphabet_witness :
  ocr ascii_upper sees_cat "QUJD" = OcrLetters "CAT" "CAT"
  ∧ keep_valid_letters "CAT" = "CAT".
Proof.
  assert (ocr ascii_upper sees_cat "QUJD" = OcrLetters "CAT" "CAT") as Hocr
    by reflexivity.
  split; [exact Hocr |].
  exact (proj1 (proj2
    (ocr_letters_in_alphabet ascii_upper sees_cat "QUJD" "CAT" "CAT" Hocr))).
Defined.

(** The service sees no letters. *)
Lemma ocr_none_is_cleaned_witness :
  image_payload "data:image/jpeg;base64,QUJD" = Some "QUJD"
  ∧ "QUJD" ≠ ""
  ∧ sees_nothing "QUJD" = inl " none "
  ∧ ascii_upper (strip " none ") = "NONE"
  ∧ ocr ascii_upper sees_nothing "data:image/jpeg;base64,QUJD"
    = OcrLetters "OE" "NONE".
Proof.
  assert ("QUJD" ≠ "") as Hdata by discriminate.
  split_and!; [reflexivity | exact Hdata | reflexivity | reflexivity |].
  exact (ocr_none_is_cleaned ascii_upper sees_nothing
           "data:image/jpeg;base64,QUJD" "QUJD" " none "
           eq_refl Hdata eq_refl eq_refl).
Defined.
